(** * TelegramWeatherBot: the route-forecast bot of [src/bot.py]

    A shallow embedding of the weather client ([fetch_location_key],
    [fetch_weather_forecast]), the aggregator ([generate_forecast]), the
    formatter ([format_forecast]) and the aiogram dialogue handlers, with
    the properties the specification states about them.

    Conventions of the embedding.
    - A Python [str] is the list of its Unicode code points ([pystr]);
      literals of the source are written [u "..."], the code points of the
      UTF-8 text between the quotes.
    - A value produced by [response.json()] is a [json]; Python's [None]
      is [JNull].
    - The weather provider is a world that answers requests: the two GET
      requests are functions from a world to a result and the next world.
    - Python exceptions are values of [exn]; a computation that raises
      keeps the state it had reached ([M]).
    - Logging calls have no effect on what the claims observe and are left
      out. *)

From Stdlib Require Import List ZArith NArith Bool String Ascii Lia.
From Stdlib Require Import DecimalString.
From Stdlib Require Import Floats.SpecFloat.
Import ListNotations.

Local Open Scope Z_scope.
Set Warnings "-register-all".

(** ** Python strings *)

Module PyStr.

(** A Python string: its code points, in order. *)
Definition pystr := list N.

(** [a == b] *)
Fixpoint eqb (a b : pystr) : bool :=
  match a, b with
  | [], [] => true
  | x :: a', y :: b' => (x =? y)%N && eqb a' b'
  | _, _ => false
  end.

(** *** Literals: UTF-8 text to code points *)

Definition cont (b : N) : N := N.land b 63.

Fixpoint utf8_decode (fuel : nat) (bs : list N) : pystr :=
  match fuel with
  | O => []
  | S fuel' =>
      match bs with
      | [] => []
      | b0 :: r0 =>
          if (b0 <? 128)%N then b0 :: utf8_decode fuel' r0
          else if (b0 <? 224)%N then
            match r0 with
            | b1 :: r1 =>
                (N.land b0 31 * 64 + cont b1)%N :: utf8_decode fuel' r1
            | _ => []
            end
          else if (b0 <? 240)%N then
            match r0 with
            | b1 :: b2 :: r2 =>
                (N.land b0 15 * 4096 + cont b1 * 64 + cont b2)%N
                  :: utf8_decode fuel' r2
            | _ => []
            end
          else
            match r0 with
            | b1 :: b2 :: b3 :: r3 =>
                (N.land b0 7 * 262144 + cont b1 * 4096 + cont b2 * 64
                 + cont b3)%N :: utf8_decode fuel' r3
            | _ => []
            end
      end
  end.

Definition bytes_of (s : string) : list N :=
  map N_of_ascii (list_ascii_of_string s).

(** [u "text"]: the Python string written ["text"] in the source. *)
Definition u (s : string) : pystr :=
  utf8_decode (String.length s) (bytes_of s).

(** The newline character, written [\n] in the source. *)
Definition nl : pystr := [10%N].

(** *** [str.split(sep)] for a one-character separator *)

Fixpoint split (sep : N) (s : pystr) : list pystr :=
  match s with
  | [] => [[]]
  | c :: s' =>
      if (c =? sep)%N then [] :: split sep s'
      else
        match split sep s' with
        | tok :: toks => (c :: tok) :: toks
        | [] => [[c]]
        end
  end.

(** [sep.join(parts)] *)
Fixpoint join (sep : N) (parts : list pystr) : pystr :=
  match parts with
  | [] => []
  | [p] => p
  | p :: ps => p ++ sep :: join sep ps
  end.

(** *** [str.strip()] *)

(** The code points Python treats as white space ([str.isspace]). *)
Definition isspace (c : N) : bool :=
  ((9 <=? c) && (c <=? 13) || (28 <=? c) && (c <=? 32)
   || (c =? 133) || (c =? 160) || (c =? 5760)
   || (8192 <=? c) && (c <=? 8202)
   || (c =? 8232) || (c =? 8233) || (c =? 8239) || (c =? 8287)
   || (c =? 12288))%N.

Fixpoint lstrip (s : pystr) : pystr :=
  match s with
  | [] => []
  | c :: s' => if isspace c then lstrip s' else s
  end.

Definition rstrip (s : pystr) : pystr := rev (lstrip (rev s)).

Definition strip (s : pystr) : pystr := rstrip (lstrip s).

(** Truth value of a string: non-empty. *)
Definition nonempty (s : pystr) : bool :=
  match s with [] => false | _ :: _ => true end.

End PyStr.
Import PyStr.

Definition comma : N := 44%N.
Definition letter_T : N := 84%N.

(** ** Python values and exceptions *)

(** What [response.json()] can produce. A [JObj] holds the items of the
    dict; subscripting finds the item with the given key. *)
Inductive json : Type :=
| JNull
| JBool (b : bool)
| JInt (z : Z)
| JFloat (f : spec_float)
| JStr (s : pystr)
| JArr (items : list json)
| JObj (items : list (pystr * json)).

Inductive exn : Type :=
| ClientError        (* the request itself failed *)
| JSONError          (* response.json() could not decode the body *)
| KeyError
| IndexError
| TypeError
| AttributeError.

(** [bool(v)] *)
Definition truthy (v : json) : bool :=
  match v with
  | JNull => false
  | JBool b => b
  | JInt z => negb (z =? 0)
  | JFloat f => match f with S754_zero _ => false | _ => true end
  | JStr s => nonempty s
  | JArr l => match l with [] => false | _ => true end
  | JObj l => match l with [] => false | _ => true end
  end.

Fixpoint dict_lookup (k : pystr) (items : list (pystr * json)) : option json :=
  match items with
  | [] => None
  | (k', v) :: rest => if PyStr.eqb k k' then Some v else dict_lookup k rest
  end.

(** [v[k]] for a string key [k] *)
Definition getitem (v : json) (k : pystr) : exn + json :=
  match v with
  | JObj items =>
      match dict_lookup k items with
      | Some x => inr x
      | None => inl KeyError
      end
  | _ => inl TypeError
  end.

(** [v[0]] *)
Definition getitem0 (v : json) : exn + json :=
  match v with
  | JArr (x :: _) => inr x
  | JArr [] => inl IndexError
  | JStr (c :: _) => inr (JStr [c])
  | JStr [] => inl IndexError
  | JObj _ => inl KeyError
  | _ => inl TypeError
  end.

(** [l[:n]] on a list *)
Definition slice_to {A} (l : list A) (n : Z) : list A :=
  if 0 <=? n then firstn (Z.to_nat n) l
  else firstn (List.length l - Z.to_nat (- n)) l.

(** [v[:n]]; a value that cannot be sliced raises (for a dict the class
    of the exception depends on the Python version). *)
Definition getslice (v : json) (n : Z) : exn + json :=
  match v with
  | JArr l => inr (JArr (slice_to l n))
  | JStr s => inr (JStr (slice_to s n))
  | _ => inl TypeError
  end.

(** ** Computations that keep their state when they raise *)

Definition M (St A : Type) : Type := St -> (exn + A) * St.

Definition ret {St A} (a : A) : M St A := fun s => (inr a, s).

Definition raise {St A} (e : exn) : M St A := fun s => (inl e, s).

Definition bind {St A B} (c : M St A) (k : A -> M St B) : M St B :=
  fun s =>
    match c s with
    | (inr a, s') => k a s'
    | (inl e, s') => (inl e, s')
    end.

(** A pure step that may raise. *)
Definition lift {St A} (r : exn + A) : M St A := fun s => (r, s).

(** [try: c  except Exception: h] *)
Definition try_except {St A} (c : M St A) (h : M St A) : M St A :=
  fun s =>
    match c s with
    | (inr a, s') => (inr a, s')
    | (inl _, s') => h s'
    end.

Declare Scope py_scope.
Delimit Scope py_scope with py.
Notation "x <- c ;; k" := (bind c (fun x => k))
  (at level 61, c at next level, right associativity) : py_scope.
Notation "c ;;; k" := (bind c (fun _ => k))
  (at level 61, right associativity) : py_scope.

(** Steps that may raise but touch no state. *)
Definition and_then {A B} (r : exn + A) (k : A -> exn + B) : exn + B :=
  match r with
  | inr a => k a
  | inl e => inl e
  end.

Notation "'letE' x := r 'in' k" := (and_then r (fun x => k))
  (at level 10, x name, k at level 200).

(** A list comprehension [[f(x) for x in l]]: left to right, the first
    exception ends it. *)
Fixpoint comprehension {A B} (f : A -> exn + B) (l : list A) : exn + list B :=
  match l with
  | [] => inr []
  | x :: rest =>
      letE y := f x in
      letE ys := comprehension f rest in
      inr (y :: ys)
  end.

(** [v.get(k, default)] *)
Definition dict_get (v : json) (k : pystr) (default : json) : exn + json :=
  match v with
  | JObj items =>
      match dict_lookup k items with
      | Some x => inr x
      | None => inr default
      end
  | _ => inl AttributeError
  end.

(** [v.split(sep)] *)
Definition method_split (v : json) (sep : N) : exn + list pystr :=
  match v with
  | JStr s => inr (split sep s)
  | _ => inl AttributeError
  end.

(** The values a [for] loop over [v] goes through. *)
Definition iterate (v : json) : exn + list json :=
  match v with
  | JArr l => inr l
  | JStr s => inr (map (fun c => JStr [c]) s)
  | JObj items => inr (map (fun kv => JStr (fst kv)) items)
  | _ => inl TypeError
  end.

(** ** The weather provider *)

(** What [session.get] gives: the request fails, or a response arrives
    with a status and a body; [body] is what [response.json()] returns,
    [None] when it raises. *)
Record response : Type := { status : Z; body : option json }.

Inductive http_result : Type :=
| RequestFailed
| Responded (r : response).

Definition response_json (r : response) : exn + json :=
  match body r with
  | Some v => inr v
  | None => inl JSONError
  end.

(** ** Results of the aggregator *)

Record day_forecast : Type :=
  { date : pystr; temperature : pystr; conditions : json }.

(** The ["forecast"] field: the string ["Нет данных"] or a list of days. *)
Inductive forecast_value : Type :=
| NoData
| Days (days : list day_forecast).

Record city_forecast : Type :=
  { location : pystr; forecast : forecast_value }.

(** ** The dialogue *)

Inductive WeatherFlow : Type :=
| input_start
| input_end
| input_midpoints
| choose_forecast.

(** The data of the FSM context: a dict with at most these four keys. *)
Record user_data : Type :=
  { start_city : option pystr;
    end_city : option pystr;
    midpoints : option (list pystr);
    days : option Z }.

Definition no_data : user_data :=
  {| start_city := None; end_city := None; midpoints := None; days := None |}.

Definition with_start_city (v : pystr) (d : user_data) : user_data :=
  {| start_city := Some v; end_city := end_city d;
     midpoints := midpoints d; days := days d |}.

Definition with_end_city (v : pystr) (d : user_data) : user_data :=
  {| start_city := start_city d; end_city := Some v;
     midpoints := midpoints d; days := days d |}.

Definition with_midpoints (v : list pystr) (d : user_data) : user_data :=
  {| start_city := start_city d; end_city := end_city d;
     midpoints := Some v; days := days d |}.

Definition with_days (v : Z) (d : user_data) : user_data :=
  {| start_city := start_city d; end_city := end_city d;
     midpoints := midpoints d; days := Some v |}.

(** What the bot sends: a message, with its inline buttons (label and
    callback data), or the acknowledgement of a button press. *)
Inductive sent : Type :=
| Answer (text : pystr) (buttons : list (pystr * pystr))
| CallAnswer.

(** What arrives: text messages and button presses. The [Command]
    filters of the framework decide which messages are the commands;
    every other text message is a [TextMessage] with its text. *)
Inductive update : Type :=
| CommandStart
| CommandHelp
| CommandWeather
| TextMessage (text : pystr)
| Callback (data : pystr).

(** The state a handler runs in: the FSM context of the conversation, the
    provider's world, and what has been sent so far. *)
Record machine (World : Type) : Type :=
  { fsm_state : option WeatherFlow;
    fsm_data : user_data;
    world : World;
    outbox : list sent }.

Arguments fsm_state {World} _.
Arguments fsm_data {World} _.
Arguments world {World} _.
Arguments outbox {World} _.

(** What the program runs against. The provider is a world answering the
    city search (by query text) and the five-day forecast request (by the
    location key in the URL); [repr_other v] is [str(v)] of a value that
    is not a string, as an f-string renders it. *)
Class Env : Type :=
  { World : Type;
    search_request : pystr -> World -> http_result * World;
    forecast_request : pystr -> World -> http_result * World;
    repr_other : json -> pystr }.

Section Bot.

Local Open Scope py_scope.

Context {env : Env}.

Definition py_str (v : json) : pystr :=
  match v with
  | JStr s => s
  | _ => repr_other v
  end.

(** [session.get(url, params)] *)
Definition session_get (request : World -> http_result * World)
  : M World response :=
  fun w =>
    match request w with
    | (RequestFailed, w') => (inl ClientError, w')
    | (Responded r, w') => (inr r, w')
    end.

(** *** Weather client *)

Definition fetch_location_key (city : pystr) : M World json :=
  response <- session_get (search_request city) ;;
  if negb (status response =? 200) then ret JNull
  else
    data <- lift (response_json response) ;;
    if truthy data then
      lift (letE first := getitem0 data in getitem first (u "Key"))
    else ret JNull.

Definition fetch_weather_forecast (location_key : json) : M World json :=
  response <- session_get (forecast_request (py_str location_key)) ;;
  if negb (status response =? 200) then ret (JArr [])
  else
    data <- lift (response_json response) ;;
    lift (dict_get data (u "DailyForecasts") (JArr [])).

(** *** Aggregator *)

(** One element of the comprehension in [generate_forecast]. *)
Definition day_of_entry (entry : json) : exn + day_forecast :=
  letE d := getitem entry (u "Date") in
  letE parts := method_split d letter_T in
  letE date0 := match parts with
                | p :: _ => inr p
                | [] => inl IndexError
                end in
  letE t1 := getitem entry (u "Temperature") in
  letE min1 := getitem t1 (u "Minimum") in
  letE min_value := getitem min1 (u "Value") in
  letE t2 := getitem entry (u "Temperature") in
  letE max1 := getitem t2 (u "Maximum") in
  letE max_value := getitem max1 (u "Value") in
  letE day := getitem entry (u "Day") in
  letE phrase := getitem day (u "IconPhrase") in
  inr {| date := date0;
         temperature :=
           py_str min_value ++ u " - " ++ py_str max_value ++ u " °C";
         conditions := phrase |}.

(** Lines 60 and 61: the forecast of a location, cut to [days]. *)
Definition forecast_data_for (loc_key : json) (days : Z) : M World json :=
  forecast_data <- fetch_weather_forecast loc_key ;;
  lift (getslice forecast_data days).

(** The [for] loop, with the list [forecasts] built so far. *)
Fixpoint generate_loop (cities : list pystr) (days : Z)
    (forecasts : list city_forecast) : M World (list city_forecast) :=
  match cities with
  | [] => ret forecasts
  | city :: rest =>
      loc_key <- fetch_location_key city ;;
      if negb (truthy loc_key) then
        generate_loop rest days
          (forecasts ++ [{| location := city; forecast := NoData |}])
      else
        forecast_data <- forecast_data_for loc_key days ;;
        city_forecast <-
          lift (letE entries := iterate forecast_data in
                comprehension day_of_entry entries) ;;
        generate_loop rest days
          (forecasts
             ++ [{| location := city; forecast := Days city_forecast |}])
  end.

Definition generate_forecast (cities : list pystr) (days : Z)
  : M World (list city_forecast) :=
  generate_loop cities days [].

(** *** Formatter *)

Definition format_day (result : pystr) (day : day_forecast) : pystr :=
  result ++ date day ++ u ": " ++ temperature day ++ u ", "
         ++ py_str (conditions day) ++ nl.

Definition format_city (result : pystr) (city_data : city_forecast)
  : pystr :=
  let result :=
    result ++ u "Прогноз погоды для " ++ location city_data ++ u ":" ++ nl in
  let result :=
    match forecast city_data with
    | NoData =>
        result ++ u " Данные недоступны для этого города🛑." ++ nl ++ nl
    | Days l => fold_left format_day l result
    end in
  result ++ nl.

Definition format_forecast (forecast_data : list city_forecast) : pystr :=
  fold_left format_city forecast_data [].

(** *** FSM context and chat operations *)

Definition handler (A : Type) : Type := M (machine World) A.

Definition answer (text : pystr) (buttons : list (pystr * pystr))
  : handler unit :=
  fun m =>
    (inr tt,
     {| fsm_state := fsm_state m; fsm_data := fsm_data m;
        world := world m; outbox := outbox m ++ [Answer text buttons] |}).

Definition call_answer : handler unit :=
  fun m =>
    (inr tt,
     {| fsm_state := fsm_state m; fsm_data := fsm_data m;
        world := world m; outbox := outbox m ++ [CallAnswer] |}).

Definition set_state (s : WeatherFlow) : handler unit :=
  fun m =>
    (inr tt,
     {| fsm_state := Some s; fsm_data := fsm_data m;
        world := world m; outbox := outbox m |}).

Definition update_data (f : user_data -> user_data) : handler unit :=
  fun m =>
    (inr tt,
     {| fsm_state := fsm_state m; fsm_data := f (fsm_data m);
        world := world m; outbox := outbox m |}).

Definition get_data : handler user_data :=
  fun m => (inr (fsm_data m), m).

(** [state.clear()]: no state, no data. *)
Definition clear : handler unit :=
  fun m =>
    (inr tt,
     {| fsm_state := None; fsm_data := no_data;
        world := world m; outbox := outbox m |}).

(** A call into the weather code. *)
Definition in_world {A} (c : M World A) : handler A :=
  fun m =>
    let (r, w) := c (world m) in
    (r,
     {| fsm_state := fsm_state m; fsm_data := fsm_data m;
        world := w; outbox := outbox m |}).

(** *** Handlers *)

Definition start_command : handler unit :=
  answer (u "Привет👋! Я могу предоставить прогноз погоды для вашего маршрута. Используйте /weather, чтобы узнать погоду.") [].

Definition help_command : handler unit :=
  answer (u "Команды:" ++ nl ++ u "/start - Начать работу с ботом🎬" ++ nl
            ++ u "/help - Показать справкуℹ️" ++ nl
            ++ u "/weather - Получить прогноз погоды🍺") [].

Definition weather_command : handler unit :=
  answer (u "Введите начальный город:") [] ;;;
  set_state input_start.

Definition handle_start_city (text : pystr) : handler unit :=
  update_data (with_start_city text) ;;;
  answer (u "Введите конечный город:") [] ;;;
  set_state input_end.

Definition handle_end_city (text : pystr) : handler unit :=
  update_data (with_end_city text) ;;;
  answer (u "Хотите добавить промежуточные города?➕")
    [(u "Добавить промежуточные точки", u "add_midpoints");
     (u "Пропустить", u "skip_midpoints")] ;;;
  set_state input_midpoints.

Definition add_midpoints : handler unit :=
  answer (u "Введите промежуточные города через запятую:") [] ;;;
  call_answer.

Definition request_forecast_days : handler unit :=
  answer (u "Выберите длительность прогноза:")
    [(u "3 дня", u "3_days"); (u "5 дней", u "5_days")] ;;;
  set_state choose_forecast.

Definition skip_midpoints : handler unit :=
  update_data (with_midpoints []) ;;;
  answer (u "Маршрут будет построен без промежуточных точек.") [] ;;;
  call_answer ;;;
  request_forecast_days.

(** The comprehension of [handle_midpoints]. *)
Definition parse_midpoints (text : pystr) : list pystr :=
  map strip (filter (fun city => nonempty (strip city)) (split comma text)).

Definition handle_midpoints (text : pystr) : handler unit :=
  let midpoints := parse_midpoints text in
  update_data (with_midpoints midpoints) ;;;
  request_forecast_days.

(** [d[key]] on the FSM data. *)
Definition required {A} (field : option A) : exn + A :=
  match field with
  | Some v => inr v
  | None => inl KeyError
  end.

(** Line 145: the city list handed to the aggregator. *)
Definition route (user_data : user_data) : exn + list pystr :=
  letE start := required (start_city user_data) in
  let mids := match midpoints user_data with
              | Some l => l
              | None => []
              end in
  letE stop := required (end_city user_data) in
  inr ([start] ++ mids ++ [stop]).

Definition forecast_days_selected (call_data : pystr) : handler unit :=
  let days := if PyStr.eqb call_data (u "3_days") then 3 else 5 in
  update_data (with_days days) ;;;
  user_data <- get_data ;;
  cities <- lift (route user_data) ;;
  try_except
    (forecasts <- in_world (generate_forecast cities days) ;;
     answer (format_forecast forecasts) [])
    (answer (u "Произошла ошибка. Пожалуйста, попробуйте позже.") []) ;;;
  clear.

(** *** Routing of updates to handlers

    Message handlers are tried in the order of their registration: the
    three commands first, then the handler of the current state.
    Callback handlers are chosen by state and callback data. An update
    that no handler takes changes nothing. *)
Definition dispatch (upd : update) : handler unit :=
  fun m =>
    match upd with
    | CommandStart => start_command m
    | CommandHelp => help_command m
    | CommandWeather => weather_command m
    | TextMessage text =>
        match fsm_state m with
        | Some input_start => handle_start_city text m
        | Some input_end => handle_end_city text m
        | Some input_midpoints => handle_midpoints text m
        | _ => ret tt m
        end
    | Callback data =>
        match fsm_state m with
        | Some input_midpoints =>
            if PyStr.eqb data (u "add_midpoints") then add_midpoints m
            else if PyStr.eqb data (u "skip_midpoints") then skip_midpoints m
            else ret tt m
        | Some choose_forecast =>
            if PyStr.eqb data (u "3_days") || PyStr.eqb data (u "5_days")
            then forecast_days_selected data m
            else ret tt m
        | _ => ret tt m
        end
    end.

(** One update: the machine after its handler, whether it returned or
    raised. *)
Definition step (m : machine World) (upd : update) : machine World :=
  snd (dispatch upd m).

(** A sequence of updates, one after the other. *)
Definition feed (m : machine World) (updates : list update)
  : machine World :=
  fold_left step updates m.

(** The FSM state after each update of the sequence. *)
Fixpoint states_after (m : machine World) (updates : list update)
  : list (option WeatherFlow) :=
  match updates with
  | [] => []
  | upd :: rest =>
      fsm_state (step m upd) :: states_after (step m upd) rest
  end.

(** A conversation that has just begun: no state, no data. *)
Definition fresh (w : World) : machine World :=
  {| fsm_state := None; fsm_data := no_data; world := w; outbox := [] |}.

(** *** Notions used to state the properties *)

(** The body of the [for] loop of [generate_forecast] for one city: the
    entry it appends. *)
Definition city_step (city : pystr) (days : Z) : M World city_forecast :=
  loc_key <- fetch_location_key city ;;
  if negb (truthy loc_key) then
    ret {| location := city; forecast := NoData |}
  else
    forecast_data <- forecast_data_for loc_key days ;;
    city_forecast <-
      lift (letE entries := iterate forecast_data in
            comprehension day_of_entry entries) ;;
    ret {| location := city; forecast := Days city_forecast |}.

(** A candidate of the city search that carries the identifier [k]. *)
Definition has_key (candidate : json) (k : pystr) : Prop :=
  getitem candidate (u "Key") = inr (JStr k).

(** The provider keeps its contract: searches answer with a status and,
    when it is 200, a list of candidates with an identifier each;
    forecasts answer with a status and, when it is 200, an object whose
    ["DailyForecasts"], if present, is a list of entries that
    [day_of_entry] can read. *)
Definition search_in_contract (r : http_result) : Prop :=
  exists resp, r = Responded resp /\
    (status resp = 200 ->
     exists cands, body resp = Some (JArr cands) /\
       Forall (fun c => exists k, has_key c k) cands).

Definition forecast_in_contract (r : http_result) : Prop :=
  exists resp, r = Responded resp /\
    (status resp = 200 ->
     exists items, body resp = Some (JObj items) /\
       forall v, dict_lookup (u "DailyForecasts") items = Some v ->
         exists entries, v = JArr entries /\
           Forall (fun e => exists d, day_of_entry e = inr d) entries).

Definition provider_contract : Prop :=
  (forall q w, search_in_contract (fst (search_request q w))) /\
  (forall k w, forecast_in_contract (fst (forecast_request k w))).

(** The machines a conversation can be in. *)
Inductive reachable : machine World -> Prop :=
| reachable_fresh w : reachable (fresh w)
| reachable_step m upd : reachable m -> reachable (step m upd).

(** The inputs of the midpoints step: any number of presses of "add
    intermediate stops", then "skip" or a text. *)
Inductive midpoints_inputs : list update -> Prop :=
| midpoints_skip : midpoints_inputs [Callback (u "skip_midpoints")]
| midpoints_text text : midpoints_inputs [TextMessage text]
| midpoints_add rest :
    midpoints_inputs rest ->
    midpoints_inputs (Callback (u "add_midpoints") :: rest).

(** A valid sequence of flow inputs: the /weather command, the start
    city, the end city, the midpoints step, the forecast-length choice. *)
Inductive valid_flow : list update -> Prop :=
| valid_flow_intro start stop mids choice :
    midpoints_inputs mids ->
    choice = u "3_days" \/ choice = u "5_days" ->
    valid_flow
      ([CommandWeather; TextMessage start; TextMessage stop]
         ++ mids ++ [Callback choice]).

(** The states a run goes through: a state held over several updates
    counts once. *)
Definition same_state (a b : option WeatherFlow) : bool :=
  match a, b with
  | None, None => true
  | Some input_start, Some input_start => true
  | Some input_end, Some input_end => true
  | Some input_midpoints, Some input_midpoints => true
  | Some choose_forecast, Some choose_forecast => true
  | _, _ => false
  end.

Fixpoint visited (current : option WeatherFlow)
    (later : list (option WeatherFlow)) : list (option WeatherFlow) :=
  match later with
  | [] => [current]
  | s :: rest =>
      if same_state current s then visited s rest
      else current :: visited s rest
  end.

(** The reply of [forecast_days_selected]: the report, or the failure
    notice when aggregation raised. *)
Definition reply_of (r : exn + list city_forecast) : sent :=
  match r with
  | inr forecasts => Answer (format_forecast forecasts) []
  | inl _ => Answer (u "Произошла ошибка. Пожалуйста, попробуйте позже.") []
  end.

(** The day count a forecast-length choice stands for. *)
Definition days_of_choice (call_data : pystr) : Z :=
  if PyStr.eqb call_data (u "3_days") then 3 else 5.

(** The fields a conversation has collected by the time it is in a
    state: the start city from [input_end] on, the end city from
    [input_midpoints] on. *)
Definition has_value {A} (field : option A) : Prop := exists v, field = Some v.

Definition fields_collected (m : machine World) : Prop :=
  match fsm_state m with
  | Some input_end => has_value (start_city (fsm_data m))
  | Some input_midpoints | Some choose_forecast =>
      has_value (start_city (fsm_data m)) /\ has_value (end_city (fsm_data m))
  | _ => True
  end.

(** The midpoints the aggregator is given: none when the key is absent. *)
Definition midpoints_or_empty (d : user_data) : list pystr :=
  match midpoints d with
  | Some l => l
  | None => []
  end.

(** The machine [forecast_days_selected] leaves when the route is
    [cities]. *)
Definition after_forecast (m : machine World) (cities : list pystr)
    (days : Z) : machine World :=
  {| fsm_state := None;
     fsm_data := no_data;
     world := snd (generate_forecast cities days (world m));
     outbox :=
       outbox m ++ [reply_of (fst (generate_forecast cities days (world m)))]
  |}.

(** *** Notions for the properties of the formatter and the handlers *)

(** The line of one day, and the block of one city, as the report shows
    them. *)
Definition day_line (day : day_forecast) : pystr :=
  date day ++ u ": " ++ temperature day ++ u ", "
           ++ py_str (conditions day) ++ nl.

Definition city_block (city_data : city_forecast) : pystr :=
  u "Прогноз погоды для " ++ location city_data ++ u ":" ++ nl
    ++ match forecast city_data with
       | NoData => u " Данные недоступны для этого города🛑." ++ nl ++ nl
       | Days l => List.concat (map day_line l)
       end
    ++ nl.

(** The midpoints that the inputs of the midpoints step leave in the
    data. *)
Fixpoint midpoints_of (inputs : list update) : list pystr :=
  match inputs with
  | [] => []
  | TextMessage text :: _ => parse_midpoints text
  | _ :: rest => midpoints_of rest
  end.

(** Two machines with the same FSM context and provider world; what has
    been sent may differ. *)
Definition same_context (m1 m2 : machine World) : Prop :=
  fsm_state m1 = fsm_state m2
  /\ fsm_data m1 = fsm_data m2
  /\ world m1 = world m2.

(** The /start and /help commands. *)
Definition is_chatter (upd : update) : bool :=
  match upd with
  | CommandStart | CommandHelp => true
  | _ => false
  end.

(** The state that follows a state in the flow. *)
Definition next_state (s : option WeatherFlow) : option WeatherFlow :=
  match s with
  | None => None
  | Some input_start => Some input_end
  | Some input_end => Some input_midpoints
  | Some input_midpoints => Some choose_forecast
  | Some choose_forecast => None
  end.

Definition is_command (upd : update) : bool :=
  match upd with
  | CommandStart | CommandHelp | CommandWeather => true
  | _ => false
  end.

(** The callback data of the buttons under the latest thing sent. *)
Definition offered (m : machine World) : list pystr :=
  match last (outbox m) CallAnswer with
  | Answer _ buttons => map snd buttons
  | CallAnswer => []
  end.

(** What holds of the data between two updates: the fields collected so
    far, the midpoints once the forecast length is asked for, and no
    stored day count. *)
Definition context_invariant (m : machine World) : Prop :=
  fields_collected m
  /\ (fsm_state m = Some choose_forecast ->
      has_value (midpoints (fsm_data m)))
  /\ days (fsm_data m) = None.

(** The latest keyboard belongs to the current state: its buttons are
    those the callback handlers of the state take. *)
Definition keyboard_matches_state (m : machine World) : Prop :=
  match fsm_state m with
  | Some input_midpoints =>
      forall d, In d (offered m) ->
        d = u "add_midpoints" \/ d = u "skip_midpoints"
  | Some choose_forecast =>
      forall d, In d (offered m) -> d = u "3_days" \/ d = u "5_days"
  | _ => offered m = []
  end.

(** A clean city name: not empty, no white space at its ends, no
    comma. *)
Definition clean_city (city : pystr) : Prop :=
  city <> [] /\ strip city = city /\ ~ In comma city.

End Bot.

(** ** A concrete provider

    A provider that knows two cities, used to run the program on concrete
    conversations. Its world counts the requests it has answered.
    ["ValidCity"] has two candidates and a five-day forecast; ["Moscow"]
    resolves, but its forecast request is refused; ["GarbageCity123"] has
    no candidate; any other search is refused. *)
Module Demo.

Definition entry (day : string) (low high : Z) (phrase : string) : json :=
  JObj [(u "Date", JStr (u day));
        (u "EpochDate", JInt 1714536000);
        (u "Temperature",
          JObj [(u "Minimum",
                  JObj [(u "Value", JInt low); (u "Unit", JStr (u "C"))]);
                (u "Maximum",
                  JObj [(u "Value", JInt high); (u "Unit", JStr (u "C"))])]);
        (u "Day",
          JObj [(u "Icon", JInt 1); (u "IconPhrase", JStr (u phrase))])].

Definition five_days : list json :=
  [entry "2024-05-01T07:00:00+03:00" 10 20 "Sunny";
   entry "2024-05-02T07:00:00+03:00" 11 21 "Cloudy";
   entry "2024-05-03T07:00:00+03:00" 12 22 "Rain";
   entry "2024-05-04T07:00:00+03:00" 13 23 "Snow";
   entry "2024-05-05T07:00:00+03:00" 14 24 "Fog"].

Definition ok (v : json) : http_result :=
  Responded {| status := 200; body := Some v |}.

Definition refused (st : Z) : http_result :=
  Responded {| status := st; body := None |}.

Definition candidate (key name : string) : json :=
  JObj [(u "Version", JInt 1); (u "Key", JStr (u key));
        (u "LocalizedName", JStr (u name))].

Definition search (q : pystr) (n : nat) : http_result * nat :=
  (if PyStr.eqb q (u "ValidCity") then
     ok (JArr [candidate "100" "Valid City"; candidate "200" "Valid Town"])
   else if PyStr.eqb q (u "Moscow") then
     ok (JArr [candidate "294021" "Moscow"])
   else if PyStr.eqb q (u "GarbageCity123") then ok (JArr [])
   else refused 503,
   S n).

Definition daily (key : pystr) (n : nat) : http_result * nat :=
  (if PyStr.eqb key (u "100") then
     ok (JObj [(u "Headline", JNull); (u "DailyForecasts", JArr five_days)])
   else refused 500,
   S n).

(** Integers in decimal; other values are not rendered. *)
Definition repr (v : json) : pystr :=
  match v with
  | JInt z => bytes_of (DecimalString.NilZero.string_of_int (Z.to_int z))
  | _ => u "?"
  end.

#[export] Instance env : Env :=
  {| World := nat;
     search_request := search;
     forecast_request := daily;
     repr_other := repr |}.

Definition day (d low_high phrase : string) : day_forecast :=
  {| date := u d; temperature := u low_high; conditions := JStr (u phrase) |}.

Definition marker (city : string) : city_forecast :=
  {| location := u city; forecast := NoData |}.

(** The search response for ["ValidCity"] and the refusal of the forecast
    for Moscow's key. *)
Definition valid_city_found : response :=
  {| status := 200;
     body := Some (JArr [candidate "100" "Valid City";
                         candidate "200" "Valid Town"]) |}.

Definition valid_city_forecast : response :=
  {| status := 200;
     body := Some (JObj [(u "Headline", JNull);
                         (u "DailyForecasts", JArr five_days)]) |}.

Definition forecast_refused : response := {| status := 500; body := None |}.

(** What the aggregator gives for ["ValidCity"] with three days. *)
Definition valid_city_3 : city_forecast :=
  {| location := u "ValidCity";
     forecast := Days [day "2024-05-01" "10 - 20 °C" "Sunny";
                       day "2024-05-02" "11 - 21 °C" "Cloudy";
                       day "2024-05-03" "12 - 22 °C" "Rain"] |}.

Definition moscow_empty : city_forecast :=
  {| location := u "Moscow"; forecast := Days [] |}.

(** A conversation up to the forecast-length choice, with the midpoints
    typed in after a press of "add intermediate stops". *)
Definition conversation : list update :=
  [CommandWeather; TextMessage (u "ValidCity"); TextMessage (u "Moscow");
   Callback (u "add_midpoints"); TextMessage (u " Paris,  , London ,,");
   Callback (u "3_days")].

(** The machine after /weather, the two cities and "add intermediate
    stops": the midpoints are awaited. *)
Definition awaiting_midpoints : machine nat :=
  feed (fresh 0%nat)
    [CommandWeather; TextMessage (u "ValidCity"); TextMessage (u "Moscow");
     Callback (u "add_midpoints")].

(** The machine after /weather, the two cities and "skip": the
    forecast-length choice is awaited. *)
Definition awaiting_choice : machine nat :=
  feed (fresh 0%nat)
    [CommandWeather; TextMessage (u "ValidCity"); TextMessage (u "Moscow");
     Callback (u "skip_midpoints")].

(** A machine at the forecast-length step with the route of the
    specification's example. *)
Definition abcd : machine nat :=
  {| fsm_state := Some choose_forecast;
     fsm_data := {| start_city := Some (u "A"); end_city := Some (u "B");
                    midpoints := Some [u "C"; u "D"]; days := None |};
     world := 0%nat;
     outbox := [] |}.

(** A provider that cannot be reached: every request fails. *)
Definition offline : Env :=
  {| World := nat;
     search_request := fun _ n => (RequestFailed, S n);
     forecast_request := fun _ n => (RequestFailed, S n);
     repr_other := repr |}.

End Demo.

(** ** A provider with faults

    ["ValidCity"] is as in [Demo]. ["Broken"] resolves, but its forecast
    payload is a list where an object is expected; the payload of
    ["Bare"] has no ["DailyForecasts"]; the payload of ["Long"] has three
    good entries followed by two that cannot be read; the search for
    ["Nowhere"] is answered with an empty object, and the search for
    ["Down"] gets no response at all. *)
Module Faulty.

Definition three_days : list json := firstn 3 Demo.five_days.

Definition search (q : pystr) (n : nat) : http_result * nat :=
  (if PyStr.eqb q (u "ValidCity") then
     Demo.ok (JArr [Demo.candidate "100" "Valid City"])
   else if PyStr.eqb q (u "Broken") then
     Demo.ok (JArr [Demo.candidate "13" "Broken"])
   else if PyStr.eqb q (u "Bare") then
     Demo.ok (JArr [Demo.candidate "7" "Bare"])
   else if PyStr.eqb q (u "Long") then
     Demo.ok (JArr [Demo.candidate "9" "Long"])
   else if PyStr.eqb q (u "Nowhere") then Demo.ok (JObj [])
   else if PyStr.eqb q (u "Down") then RequestFailed
   else Demo.refused 503,
   S n).

Definition daily (key : pystr) (n : nat) : http_result * nat :=
  (if PyStr.eqb key (u "100") then
     Demo.ok (JObj [(u "DailyForecasts", JArr Demo.five_days)])
   else if PyStr.eqb key (u "13") then Demo.ok (JArr Demo.five_days)
   else if PyStr.eqb key (u "7") then Demo.ok (JObj [(u "Headline", JNull)])
   else if PyStr.eqb key (u "9") then
     Demo.ok (JObj [(u "DailyForecasts",
                     JArr (three_days ++ [JNull; JStr (u "junk")]))])
   else Demo.refused 500,
   S n).

Definition env : Env :=
  {| World := nat;
     search_request := search;
     forecast_request := daily;
     repr_other := Demo.repr |}.

(** A machine at the forecast-length step whose data lacks the start
    city. *)
Definition no_start : machine nat :=
  {| fsm_state := Some choose_forecast;
     fsm_data := {| start_city := None; end_city := Some (u "B");
                    midpoints := Some []; days := None |};
     world := 0%nat;
     outbox := [] |}.

End Faulty.

(** * Properties *)

(** ** Splitting and trimming *)

Module PyStrFacts.

Lemma eqb_eq (a : pystr) : forall b, PyStr.eqb a b = true <-> a = b.
Proof.
  induction a as [|x a IH]; intros [|y b]; simpl;
    try (split; [discriminate|congruence]); [tauto|].
  rewrite andb_true_iff, N.eqb_eq, IH. split.
  - intros [-> ->]. reflexivity.
  - intros H. injection H as -> ->. split; reflexivity.
Qed.

Lemma eqb_refl (a : pystr) : PyStr.eqb a a = true.
Proof. apply eqb_eq. reflexivity. Qed.

Lemma split_not_nil sep s : split sep s <> [].
Proof.
  destruct s as [|c s]; simpl; [discriminate|].
  destruct (c =? sep)%N; [discriminate|].
  destruct (split sep s); discriminate.
Qed.

(** Joining the tokens with the separator gives the text back. *)
Lemma join_split sep s : join sep (split sep s) = s.
Proof.
  induction s as [|c s IH]; simpl; [reflexivity|].
  destruct (N.eqb_spec c sep) as [->|Hne].
  - pose proof (split_not_nil sep s) as Hnn.
    destruct (split sep s) as [|tok toks]; [contradiction|].
    simpl in *. rewrite IH. reflexivity.
  - pose proof (split_not_nil sep s) as Hnn.
    destruct (split sep s) as [|tok toks]; [contradiction|].
    destruct toks as [|tok' toks]; simpl in *; rewrite <- IH; reflexivity.
Qed.

(** No token contains the separator. *)
Lemma split_no_sep sep s : Forall (fun tok => ~ In sep tok) (split sep s).
Proof.
  induction s as [|c s IH]; simpl.
  - constructor; [intros []|constructor].
  - destruct (N.eqb_spec c sep) as [->|Hne].
    + constructor; [intros []|exact IH].
    + destruct (split sep s) as [|tok toks].
      * constructor; [|constructor]. intros [H|[]]. congruence.
      * inversion IH as [|? ? Htok Htoks]; subst.
        constructor; [|exact Htoks].
        intros [H|H]; [congruence|contradiction].
Qed.

(** [lstrip] removes a run of white space and stops at the first other
    character. *)
Lemma lstrip_spec s :
  exists ws, s = ws ++ lstrip s /\ forallb isspace ws = true.
Proof.
  induction s as [|c s [ws [Heq Hws]]]; simpl.
  - exists []. split; reflexivity.
  - destruct (isspace c) eqn:Hc.
    + exists (c :: ws). simpl. rewrite Hc, Hws. split; [congruence|reflexivity].
    + exists []. split; reflexivity.
Qed.

Lemma lstrip_head s c rest : lstrip s = c :: rest -> isspace c = false.
Proof.
  induction s as [|a s IH]; simpl; [discriminate|].
  destruct (isspace a) eqn:Ha; [exact IH|].
  intros H. injection H as <- _. exact Ha.
Qed.

Lemma lstrip_snoc s c : isspace c = false -> lstrip (s ++ [c]) = lstrip s ++ [c].
Proof.
  intros Hc. induction s as [|a s IH]; simpl.
  - rewrite Hc. reflexivity.
  - destruct (isspace a); [exact IH|reflexivity].
Qed.

(** [strip] removes white space at both ends, and only there: what is
    left neither begins nor ends with white space. *)
Lemma strip_spec s :
  exists l r,
    s = l ++ strip s ++ r
    /\ forallb isspace l = true /\ forallb isspace r = true
    /\ (forall c rest, strip s = c :: rest -> isspace c = false)
    /\ (forall c front, strip s = front ++ [c] -> isspace c = false).
Proof.
  unfold strip, rstrip.
  destruct (lstrip_spec s) as [l [Hl Hlws]].
  destruct (lstrip_spec (rev (lstrip s))) as [r' [Hr Hrws]].
  exists l, (rev r'). split; [|split; [exact Hlws|split; [|split]]].
  - rewrite <- rev_app_distr, <- Hr, rev_involutive. exact Hl.
  - rewrite forallb_forall in *. intros x Hx. apply Hrws.
    apply in_rev. exact Hx.
  - intros c rest Hs.
    destruct (lstrip s) as [|a t] eqn:Ht; [simpl in Hs; discriminate|].
    pose proof (lstrip_head _ _ _ Ht) as Ha.
    simpl in Hs. rewrite (lstrip_snoc _ _ Ha), rev_app_distr in Hs.
    simpl in Hs. injection Hs as <- _. exact Ha.
  - intros c front Hs.
    apply (f_equal (@rev N)) in Hs.
    rewrite rev_involutive, rev_app_distr in Hs. simpl in Hs.
    exact (lstrip_head _ _ _ Hs).
Qed.

Lemma strip_fixed t :
  (forall c rest, t = c :: rest -> isspace c = false) ->
  (forall c front, t = front ++ [c] -> isspace c = false) ->
  strip t = t.
Proof.
  intros Hhead Hlast. unfold strip, rstrip.
  assert (Hl : lstrip t = t).
  { destruct t as [|c rest]; [reflexivity|].
    simpl. rewrite (Hhead c rest eq_refl). reflexivity. }
  rewrite Hl.
  destruct (rev t) as [|c front] eqn:E.
  - apply (f_equal (@rev N)) in E. rewrite rev_involutive in E.
    simpl in *. congruence.
  - assert (Hs : t = rev front ++ [c]).
    { apply (f_equal (@rev N)) in E. rewrite rev_involutive in E.
      exact E. }
    simpl. rewrite (Hlast c (rev front) Hs). simpl. congruence.
Qed.

Lemma strip_trimmed s : strip (strip s) = strip s.
Proof.
  destruct (strip_spec s) as [l [r [_ [_ [_ [Hhead Hlast]]]]]].
  apply strip_fixed; assumption.
Qed.

End PyStrFacts.

(** ** The aggregator, city by city *)

Section AggregatorFacts.

Context {env : Env}.

(** The loop runs its body on the first city and goes on with the rest. *)
Lemma generate_loop_cons city rest days acc w :
  generate_loop (city :: rest) days acc w =
  match city_step city days w with
  | (inr r, w1) => generate_loop rest days (acc ++ [r]) w1
  | (inl e, w1) => (inl e, w1)
  end.
Proof.
  simpl generate_loop. unfold city_step, bind.
  destruct (fetch_location_key city w) as [[e|key] w1]; [reflexivity|].
  destruct (negb (truthy key)); [reflexivity|].
  destruct (forecast_data_for key days w1) as [[e|fd] w2]; [reflexivity|].
  unfold lift.
  destruct (letE entries := iterate fd in comprehension day_of_entry entries);
    reflexivity.
Qed.

(** What is already in [forecasts] stays in front. *)
Lemma generate_loop_acc cities days : forall acc w,
  generate_loop cities days acc w =
  match generate_loop cities days [] w with
  | (inr rs, w') => (inr (acc ++ rs), w')
  | (inl e, w') => (inl e, w')
  end.
Proof.
  induction cities as [|city rest IH]; intros acc w.
  - simpl. unfold ret. rewrite app_nil_r. reflexivity.
  - rewrite !generate_loop_cons.
    destruct (city_step city days w) as [[e|r] w1]; [reflexivity|].
    rewrite (IH (acc ++ [r])), (IH ([] ++ [r])).
    destruct (generate_loop rest days [] w1) as [[e|rs] w2]; [reflexivity|].
    rewrite <- app_assoc. reflexivity.
Qed.

Lemma generate_forecast_cons city rest days w :
  generate_forecast (city :: rest) days w =
  match city_step city days w with
  | (inr r, w1) =>
      match generate_forecast rest days w1 with
      | (inr rs, w2) => (inr (r :: rs), w2)
      | (inl e, w2) => (inl e, w2)
      end
  | (inl e, w1) => (inl e, w1)
  end.
Proof.
  unfold generate_forecast. rewrite generate_loop_cons.
  destruct (city_step city days w) as [[e|r] w1]; [reflexivity|].
  rewrite generate_loop_acc. reflexivity.
Qed.

(** The cities after a prefix are processed from the world the prefix
    left, and their entries follow those of the prefix. *)
Lemma generate_forecast_app pre post days : forall w,
  generate_forecast (pre ++ post) days w =
  match generate_forecast pre days w with
  | (inr r1, w1) =>
      match generate_forecast post days w1 with
      | (inr r2, w2) => (inr (r1 ++ r2), w2)
      | (inl e, w2) => (inl e, w2)
      end
  | (inl e, w1) => (inl e, w1)
  end.
Proof.
  induction pre as [|city pre IH]; intros w.
  - cbn [app]. unfold generate_forecast at 2. cbn [generate_loop]. unfold ret.
    destruct (generate_forecast post days w) as [[e|r2] w2]; reflexivity.
  - simpl app. rewrite !generate_forecast_cons.
    destruct (city_step city days w) as [[e|r] w1]; [reflexivity|].
    rewrite IH.
    destruct (generate_forecast pre days w1) as [[e|r1] w2]; [reflexivity|].
    destruct (generate_forecast post days w2) as [[e|r2] w3]; reflexivity.
Qed.

(** A city whose key is missing or falsy gets the marker, and no forecast
    request is made for it. *)
Lemma city_step_not_found city days w key w1 :
  fetch_location_key city w = (inr key, w1) ->
  truthy key = false ->
  city_step city days w = (inr {| location := city; forecast := NoData |}, w1).
Proof.
  intros Hkey Hfalsy. unfold city_step, bind. rewrite Hkey, Hfalsy. reflexivity.
Qed.

(** A city whose key resolved gets the days read from its truncated
    forecast. *)
Lemma city_step_resolved city days w key w1 :
  fetch_location_key city w = (inr key, w1) ->
  truthy key = true ->
  city_step city days w =
  match forecast_data_for key days w1 with
  | (inr fd, w2) =>
      match (letE entries := iterate fd in comprehension day_of_entry entries) with
      | inr ds => (inr {| location := city; forecast := Days ds |}, w2)
      | inl e => (inl e, w2)
      end
  | (inl e, w2) => (inl e, w2)
  end.
Proof.
  intros Hkey Htrue. unfold city_step, bind. rewrite Hkey, Htrue. simpl.
  destruct (forecast_data_for key days w1) as [[e|fd] w2]; [reflexivity|].
  unfold lift.
  destruct (letE entries := iterate fd in comprehension day_of_entry entries);
    reflexivity.
Qed.

Lemma city_step_location city days w r w1 :
  city_step city days w = (inr r, w1) -> location r = city.
Proof.
  unfold city_step, bind.
  destruct (fetch_location_key city w) as [[e|key] w0]; [discriminate|].
  destruct (negb (truthy key)).
  - unfold ret. intros H. injection H as <- _. reflexivity.
  - destruct (forecast_data_for key days w0) as [[e|fd] w2]; [discriminate|].
    unfold lift.
    destruct (letE entries := iterate fd in comprehension day_of_entry entries);
      [discriminate|].
    unfold ret. intros H. injection H as <- _. reflexivity.
Qed.

Lemma generate_forecast_map_location cities days : forall w rs w',
  generate_forecast cities days w = (inr rs, w') ->
  map location rs = cities.
Proof.
  induction cities as [|city rest IH]; intros w rs w' H.
  - injection H as <- _. reflexivity.
  - rewrite generate_forecast_cons in H.
    destruct (city_step city days w) as [[e|r] w1] eqn:Hstep; [discriminate|].
    destruct (generate_forecast rest days w1) as [[e|rs'] w2] eqn:Hrest;
      [discriminate|].
    injection H as <- _. simpl.
    rewrite (city_step_location _ _ _ _ _ Hstep), (IH _ _ _ Hrest).
    reflexivity.
Qed.

End AggregatorFacts.

(** ** The weather client *)

Section ClientFacts.

Context {env : Env}.

Lemma fetch_location_key_refused city w r w' :
  search_request city w = (Responded r, w') ->
  status r <> 200 ->
  fetch_location_key city w = (inr JNull, w').
Proof.
  intros Hreq Hst. unfold fetch_location_key, bind, session_get.
  rewrite Hreq. destruct (Z.eqb_spec (status r) 200); [contradiction|].
  reflexivity.
Qed.

Lemma fetch_location_key_empty city w r w' :
  search_request city w = (Responded r, w') ->
  status r = 200 ->
  body r = Some (JArr []) ->
  fetch_location_key city w = (inr JNull, w').
Proof.
  intros Hreq Hst Hbody. unfold fetch_location_key, bind, session_get.
  rewrite Hreq, Hst. simpl. unfold lift, response_json. rewrite Hbody.
  reflexivity.
Qed.

Lemma fetch_location_key_first city w r w' c rest :
  search_request city w = (Responded r, w') ->
  status r = 200 ->
  body r = Some (JArr (c :: rest)) ->
  fetch_location_key city w = (getitem c (u "Key"), w').
Proof.
  intros Hreq Hst Hbody. unfold fetch_location_key, bind, session_get.
  rewrite Hreq, Hst. simpl. unfold lift, response_json. rewrite Hbody.
  reflexivity.
Qed.

Lemma fetch_weather_forecast_refused key w r w' :
  forecast_request (py_str key) w = (Responded r, w') ->
  status r <> 200 ->
  fetch_weather_forecast key w = (inr (JArr []), w').
Proof.
  intros Hreq Hst. unfold fetch_weather_forecast, bind, session_get.
  rewrite Hreq. destruct (Z.eqb_spec (status r) 200); [contradiction|].
  reflexivity.
Qed.

Lemma fetch_weather_forecast_ok key w r w' items :
  forecast_request (py_str key) w = (Responded r, w') ->
  status r = 200 ->
  body r = Some (JObj items) ->
  fetch_weather_forecast key w =
  (inr match dict_lookup (u "DailyForecasts") items with
       | Some v => v
       | None => JArr []
       end, w').
Proof.
  intros Hreq Hst Hbody. unfold fetch_weather_forecast, bind, session_get.
  rewrite Hreq, Hst. simpl. unfold lift, response_json. rewrite Hbody.
  simpl. destruct (dict_lookup (u "DailyForecasts") items); reflexivity.
Qed.

Lemma slice_to_nil {A} n : @slice_to A [] n = [].
Proof. unfold slice_to. destruct (0 <=? n); apply firstn_nil. Qed.

Lemma slice_to_firstn {A} (l : list A) n :
  0 <= n -> slice_to l n = firstn (Z.to_nat n) l.
Proof.
  intros Hn. unfold slice_to. destruct (Z.leb_spec 0 n); [reflexivity|lia].
Qed.

Lemma slice_to_length {A} (l : list A) n :
  0 <= n -> Z.of_nat (List.length (slice_to l n)) = Z.min n (Z.of_nat (List.length l)).
Proof.
  intros Hn. rewrite slice_to_firstn by exact Hn. rewrite length_firstn. lia.
Qed.

(** C6. When the provider answers the search with a status and, for
    status 200, a list whose first candidate carries an identifier,
    [fetch_location_key] answers [None] exactly when the status is not
    200 or the candidate list is empty; otherwise it answers the
    identifier of the first candidate, whatever candidates follow. *)
Theorem fetch_location_key_spec city w r w' :
  search_request city w = (Responded r, w') ->
  (status r = 200 ->
   exists cands, body r = Some (JArr cands) /\
     forall c rest, cands = c :: rest -> exists k, has_key c k) ->
  (fst (fetch_location_key city w) = inr JNull
   <-> status r <> 200 \/ body r = Some (JArr []))
  /\ (forall c rest,
        status r = 200 -> body r = Some (JArr (c :: rest)) ->
        exists k, has_key c k
                  /\ fetch_location_key city w = (inr (JStr k), w')).
Proof.
  intros Hreq Hcontract. split.
  - destruct (Z.eq_dec (status r) 200) as [Hst|Hst].
    + destruct (Hcontract Hst) as [cands [Hbody Hcands]].
      destruct cands as [|c rest].
      * rewrite (fetch_location_key_empty _ _ _ _ Hreq Hst Hbody).
        split; [intros _; right; exact Hbody|reflexivity].
      * rewrite (fetch_location_key_first _ _ _ _ _ _ Hreq Hst Hbody).
        destruct (Hcands c rest eq_refl) as [k Hk].
        unfold has_key in Hk. rewrite Hk. simpl. split.
        -- discriminate.
        -- intros [Hno|Hno]; [contradiction|]. rewrite Hbody in Hno.
           discriminate.
    + rewrite (fetch_location_key_refused _ _ _ _ Hreq Hst).
      split; [intros _; left; exact Hst|reflexivity].
  - intros c rest Hst Hbody.
    destruct (Hcontract Hst) as [cands [Hbody' Hcands]].
    rewrite Hbody in Hbody'. injection Hbody' as <-.
    destruct (Hcands c rest eq_refl) as [k Hk].
    exists k. split; [exact Hk|].
    rewrite (fetch_location_key_first _ _ _ _ _ _ Hreq Hst Hbody).
    unfold has_key in Hk. rewrite Hk. reflexivity.
Qed.

(** C7. Fetching a forecast answers an empty list when the provider's
    status is not 200. Otherwise [fetch_weather_forecast] answers the
    ["DailyForecasts"] list of the payload, and the forecast data that
    [generate_forecast] takes from it (lines 60 and 61) is that list cut
    to its first [days] entries. *)
Theorem forecast_data_for_spec key days w r w' :
  forecast_request (py_str key) w = (Responded r, w') ->
  (status r <> 200 ->
   fetch_weather_forecast key w = (inr (JArr []), w')
   /\ forecast_data_for key days w = (inr (JArr []), w'))
  /\ (forall items entries,
        status r = 200 ->
        body r = Some (JObj items) ->
        dict_lookup (u "DailyForecasts") items = Some (JArr entries) ->
        0 <= days ->
        fetch_weather_forecast key w = (inr (JArr entries), w')
        /\ forecast_data_for key days w
           = (inr (JArr (firstn (Z.to_nat days) entries)), w')).
Proof.
  intros Hreq. split.
  - intros Hst. unfold forecast_data_for, bind.
    rewrite (fetch_weather_forecast_refused _ _ _ _ Hreq Hst).
    split; [reflexivity|]. unfold lift. simpl. rewrite slice_to_nil.
    reflexivity.
  - intros items entries Hst Hbody Hlookup Hdays.
    unfold forecast_data_for, bind.
    rewrite (fetch_weather_forecast_ok _ _ _ _ _ Hreq Hst Hbody), Hlookup.
    split; [reflexivity|]. unfold lift. simpl.
    rewrite slice_to_firstn by exact Hdays. reflexivity.
Qed.

End ClientFacts.

(** ** The aggregator's results *)

Section ResultFacts.

Context {env : Env}.

Lemma comprehension_Forall2 {A B} (f : A -> exn + B) l : forall ys,
  comprehension f l = inr ys -> Forall2 (fun x y => f x = inr y) l ys.
Proof.
  induction l as [|x l IH]; simpl; intros ys H.
  - injection H as <-. constructor.
  - destruct (f x) as [e|y] eqn:Hx; simpl in H; [discriminate|].
    destruct (comprehension f l) as [e|ys'] eqn:Hl; simpl in H; [discriminate|].
    injection H as <-. constructor; [exact Hx|]. apply IH. reflexivity.
Qed.

Lemma comprehension_returns {A B} (f : A -> exn + B) l :
  Forall (fun x => exists y, f x = inr y) l ->
  exists ys, comprehension f l = inr ys.
Proof.
  induction 1 as [|x l [y Hy] _ [ys Hys]]; simpl.
  - exists []. reflexivity.
  - rewrite Hy, Hys. simpl. exists (y :: ys). reflexivity.
Qed.

Lemma slice_to_Forall {A} (P : A -> Prop) l n :
  Forall P l -> Forall P (slice_to l n).
Proof.
  intros H. unfold slice_to.
  destruct (0 <=? n).
  - rewrite <- (firstn_skipn (Z.to_nat n) l) in H.
    apply Forall_app in H. tauto.
  - rewrite <- (firstn_skipn (List.length l - Z.to_nat (- n)) l) in H.
    apply Forall_app in H. tauto.
Qed.

Lemma generate_forecast_length cities days w rs w' :
  generate_forecast cities days w = (inr rs, w') ->
  List.length rs = List.length cities.
Proof.
  intros H. apply generate_forecast_map_location in H.
  rewrite <- H. symmetry. apply length_map.
Qed.

(** A provider that keeps its contract never makes the body of the loop
    raise. *)
Lemma city_step_returns city days w :
  provider_contract ->
  exists r w1, city_step city days w = (inr r, w1).
Proof.
  intros [Hsearch Hdaily].
  specialize (Hsearch city w).
  destruct (search_request city w) as [hr w1] eqn:Hreq. simpl in Hsearch.
  destruct Hsearch as [resp [-> Hresp]].
  assert (Hkey : exists key, fetch_location_key city w = (inr key, w1)).
  { destruct (Z.eq_dec (status resp) 200) as [Hst|Hst].
    - destruct (Hresp Hst) as [cands [Hbody Hcands]].
      destruct cands as [|c rest].
      + exists JNull. eapply fetch_location_key_empty; eassumption.
      + inversion Hcands as [|? ? [k Hk] _]; subst. exists (JStr k).
        rewrite (fetch_location_key_first _ _ _ _ _ _ Hreq Hst Hbody).
        unfold has_key in Hk. rewrite Hk. reflexivity.
    - exists JNull. eapply fetch_location_key_refused; eassumption. }
  destruct Hkey as [key Hkey].
  destruct (truthy key) eqn:Htruthy.
  2:{ eexists _, _. eapply city_step_not_found; eassumption. }
  rewrite (city_step_resolved _ _ _ _ _ Hkey Htruthy).
  specialize (Hdaily (py_str key) w1).
  destruct (forecast_request (py_str key) w1) as [hr2 w2] eqn:Hreq2.
  simpl in Hdaily. destruct Hdaily as [resp2 [-> Hresp2]].
  unfold forecast_data_for, bind.
  destruct (Z.eq_dec (status resp2) 200) as [Hst|Hst].
  - destruct (Hresp2 Hst) as [items [Hbody Hitems]].
    rewrite (fetch_weather_forecast_ok _ _ _ _ _ Hreq2 Hst Hbody).
    destruct (dict_lookup (u "DailyForecasts") items) as [v|] eqn:Hlookup.
    + destruct (Hitems v eq_refl) as [entries [-> Hentries]].
      unfold lift. simpl.
      destruct (comprehension_returns day_of_entry (slice_to entries days))
        as [ds Hds]; [apply slice_to_Forall; exact Hentries|].
      rewrite Hds. eexists _, _. reflexivity.
    + unfold lift. simpl. rewrite slice_to_nil. simpl.
      eexists _, _. reflexivity.
  - rewrite (fetch_weather_forecast_refused _ _ _ _ Hreq2 Hst).
    unfold lift. simpl. rewrite slice_to_nil. simpl.
    eexists _, _. reflexivity.
Qed.

Lemma generate_forecast_returns cities days :
  provider_contract ->
  forall w, exists rs w', generate_forecast cities days w = (inr rs, w').
Proof.
  intros Hc. induction cities as [|city rest IH]; intros w.
  - exists [], w. reflexivity.
  - rewrite generate_forecast_cons.
    destruct (city_step_returns city days w Hc) as [r [w1 ->]].
    destruct (IH w1) as [rs [w2 ->]].
    eexists _, _. reflexivity.
Qed.

End ResultFacts.

(** ** What the aggregator promises *)

Section AggregatorClaims.

Context {env : Env}.

(** C10. The aggregator's output has one entry per input city, and the
    i-th entry carries the i-th city name as the user gave it, whether it
    holds a forecast or the marker; with a provider that keeps its
    contract the aggregator does return such an output. *)
Theorem generate_forecast_locations cities days w :
  (provider_contract ->
   exists rs w', generate_forecast cities days w = (inr rs, w'))
  /\ (forall rs w',
        generate_forecast cities days w = (inr rs, w') ->
        List.length rs = List.length cities
        /\ forall i, nth_error (map location rs) i = nth_error cities i).
Proof.
  split.
  - intros Hc. apply generate_forecast_returns. exact Hc.
  - intros rs w' H. split.
    + eapply generate_forecast_length. exact H.
    + intros i. rewrite (generate_forecast_map_location _ _ _ _ _ H).
      reflexivity.
Qed.

(** C5. A city whose location does not resolve gets the marker in its own
    place: the entries of the cities before it are those the aggregator
    gives them anyway, and the cities after it are processed as usual,
    from the world left by the failed lookup. The output follows the order
    of the input. *)
Theorem resolution_failure_isolated pre city post days w rs_pre w1 key w2 :
  generate_forecast pre days w = (inr rs_pre, w1) ->
  fetch_location_key city w1 = (inr key, w2) ->
  truthy key = false ->
  generate_forecast (pre ++ city :: post) days w =
  match generate_forecast post days w2 with
  | (inr rs_post, w3) =>
      (inr (rs_pre ++ {| location := city; forecast := NoData |} :: rs_post),
       w3)
  | (inl e, w3) => (inl e, w3)
  end
  /\ (forall rs w',
        generate_forecast (pre ++ city :: post) days w = (inr rs, w') ->
        map location rs = pre ++ city :: post).
Proof.
  intros Hpre Hkey Hfalsy. split.
  - rewrite generate_forecast_app, Hpre, generate_forecast_cons.
    rewrite (city_step_not_found _ days _ _ _ Hkey Hfalsy).
    destruct (generate_forecast post days w2) as [[e|rs_post] w3];
      reflexivity.
  - intros rs w' H. eapply generate_forecast_map_location. exact H.
Qed.

(** C4. For a city whose location resolves and whose forecast request
    gives a list of entries, the city's forecast holds at most [days]
    days: those read from the first [days] entries, in the provider's
    order, and exactly [days] of them when the provider gave that
    many. *)
Theorem forecast_truncated_to_days
    pre city post days w rs_pre w1 key w2 entries w3 rs w' :
  0 <= days ->
  generate_forecast pre days w = (inr rs_pre, w1) ->
  fetch_location_key city w1 = (inr key, w2) ->
  truthy key = true ->
  fetch_weather_forecast key w2 = (inr (JArr entries), w3) ->
  generate_forecast (pre ++ city :: post) days w = (inr rs, w') ->
  exists ds,
    nth_error rs (List.length pre)
    = Some {| location := city; forecast := Days ds |}
    /\ Z.of_nat (List.length ds) <= days
    /\ Forall2 (fun e d => day_of_entry e = inr d)
         (firstn (Z.to_nat days) entries) ds
    /\ (days <= Z.of_nat (List.length entries) ->
        Z.of_nat (List.length ds) = days).
Proof.
  intros Hdays Hpre Hkey Htruthy Hfetch Hrun.
  rewrite generate_forecast_app, Hpre, generate_forecast_cons in Hrun.
  rewrite (city_step_resolved _ days _ _ _ Hkey Htruthy) in Hrun.
  unfold forecast_data_for, bind in Hrun. rewrite Hfetch in Hrun.
  unfold lift in Hrun. simpl in Hrun.
  rewrite slice_to_firstn in Hrun by exact Hdays.
  destruct (comprehension day_of_entry (firstn (Z.to_nat days) entries))
    as [e|ds] eqn:Hds; [discriminate|].
  destruct (generate_forecast post days w3) as [[e|rs_post] w4];
    [discriminate|].
  injection Hrun as <- _.
  pose proof (comprehension_Forall2 _ _ _ Hds) as Hall.
  pose proof (Forall2_length Hall) as Hlen. rewrite length_firstn in Hlen.
  exists ds. split; [|split; [lia|split; [exact Hall|lia]]].
  rewrite nth_error_app2;
    rewrite (generate_forecast_length _ _ _ _ _ Hpre); [|lia].
  rewrite Nat.sub_diag. reflexivity.
Qed.

(** C8, as the code has it. A city whose location resolves but whose
    forecast request is refused gets an empty list of days, not the
    marker, and the cities around it are processed as usual. The report
    shows such a city as its header line alone; the line that says data
    is unavailable appears only for the marker. *)
Theorem fetch_failure_gives_empty_forecast
    pre city post days w rs_pre w1 key w2 r w3 :
  generate_forecast pre days w = (inr rs_pre, w1) ->
  fetch_location_key city w1 = (inr key, w2) ->
  truthy key = true ->
  forecast_request (py_str key) w2 = (Responded r, w3) ->
  status r <> 200 ->
  generate_forecast (pre ++ city :: post) days w =
  match generate_forecast post days w3 with
  | (inr rs_post, w4) =>
      (inr (rs_pre ++ {| location := city; forecast := Days [] |} :: rs_post),
       w4)
  | (inl e, w4) => (inl e, w4)
  end
  /\ format_forecast [{| location := city; forecast := Days [] |}]
     = u "Прогноз погоды для " ++ city ++ u ":" ++ nl ++ nl
  /\ format_forecast [{| location := city; forecast := NoData |}]
     = u "Прогноз погоды для " ++ city ++ u ":" ++ nl
         ++ u " Данные недоступны для этого города🛑." ++ nl ++ nl ++ nl.
Proof.
  intros Hpre Hkey Htruthy Hreq Hst. split; [|split].
  - rewrite generate_forecast_app, Hpre, generate_forecast_cons.
    rewrite (city_step_resolved _ days _ _ _ Hkey Htruthy).
    unfold forecast_data_for, bind.
    rewrite (fetch_weather_forecast_refused _ _ _ _ Hreq Hst).
    unfold lift. simpl. rewrite slice_to_nil. simpl.
    destruct (generate_forecast post days w3) as [[e|rs_post] w4];
      reflexivity.
  - unfold format_forecast, format_city. simpl.
    rewrite <- !app_assoc. reflexivity.
  - unfold format_forecast, format_city. simpl.
    rewrite <- !app_assoc. reflexivity.
Qed.

End AggregatorClaims.

(** ** The dialogue *)

Section DialogueFacts.

Context {env : Env}.

Import PyStrFacts.

Ltac run_handler H :=
  unfold step, dispatch; rewrite H; reflexivity.

Lemma step_weather m :
  step m CommandWeather =
  {| fsm_state := Some input_start; fsm_data := fsm_data m; world := world m;
     outbox := outbox m ++ [Answer (u "Введите начальный город:") []] |}.
Proof. reflexivity. Qed.

Lemma step_start_city m text :
  fsm_state m = Some input_start ->
  step m (TextMessage text) =
  {| fsm_state := Some input_end;
     fsm_data := with_start_city text (fsm_data m);
     world := world m;
     outbox := outbox m ++ [Answer (u "Введите конечный город:") []] |}.
Proof. intros H. run_handler H. Qed.

Lemma step_end_city m text :
  fsm_state m = Some input_end ->
  fsm_state (step m (TextMessage text)) = Some input_midpoints
  /\ fsm_data (step m (TextMessage text)) = with_end_city text (fsm_data m).
Proof. intros H. split; run_handler H. Qed.

Lemma step_add_midpoints m :
  fsm_state m = Some input_midpoints ->
  fsm_state (step m (Callback (u "add_midpoints"))) = Some input_midpoints
  /\ fsm_data (step m (Callback (u "add_midpoints"))) = fsm_data m.
Proof.
  intros H. unfold step, dispatch. rewrite H, eqb_refl.
  split; [exact H|reflexivity].
Qed.

Lemma step_skip_midpoints m :
  fsm_state m = Some input_midpoints ->
  fsm_state (step m (Callback (u "skip_midpoints"))) = Some choose_forecast
  /\ fsm_data (step m (Callback (u "skip_midpoints")))
     = with_midpoints [] (fsm_data m).
Proof. intros H. split; run_handler H. Qed.

Lemma step_midpoints_text m text :
  fsm_state m = Some input_midpoints ->
  fsm_state (step m (TextMessage text)) = Some choose_forecast
  /\ fsm_data (step m (TextMessage text))
     = with_midpoints (parse_midpoints text) (fsm_data m).
Proof. intros H. split; run_handler H. Qed.

Lemma route_with_days n d : route (with_days n d) = route d.
Proof. reflexivity. Qed.

Lemma route_collected d start stop :
  start_city d = Some start ->
  end_city d = Some stop ->
  route d = inr ([start] ++ midpoints_or_empty d ++ [stop]).
Proof.
  intros Hs He. unfold route, midpoints_or_empty. rewrite Hs, He.
  reflexivity.
Qed.

(** The handler of the forecast-length choice, once the route is there:
    one call of the aggregator, one reply, and the context cleared. *)
Lemma forecast_days_selected_run choice m cities :
  route (fsm_data m) = inr cities ->
  snd (forecast_days_selected choice m)
  = after_forecast m cities (days_of_choice choice).
Proof.
  intros Hroute.
  unfold forecast_days_selected, after_forecast, days_of_choice, bind,
    update_data, get_data, lift, try_except, in_world, answer, clear.
  cbn [fsm_data fsm_state world outbox].
  rewrite route_with_days, Hroute.
  destruct (generate_forecast cities
              (if PyStr.eqb choice (u "3_days") then 3 else 5) (world m))
    as [[e|rs] w']; reflexivity.
Qed.

Lemma choice_accepted choice :
  choice = u "3_days" \/ choice = u "5_days" ->
  PyStr.eqb choice (u "3_days") || PyStr.eqb choice (u "5_days") = true.
Proof. intros [->| ->]; reflexivity. Qed.

Lemma step_forecast_choice m choice cities :
  fsm_state m = Some choose_forecast ->
  choice = u "3_days" \/ choice = u "5_days" ->
  route (fsm_data m) = inr cities ->
  step m (Callback choice) = after_forecast m cities (days_of_choice choice).
Proof.
  intros Hs Hchoice Hroute. unfold step, dispatch.
  rewrite Hs, (choice_accepted _ Hchoice).
  apply forecast_days_selected_run. exact Hroute.
Qed.

Lemma step_unhandled_text m text :
  fsm_state m = None \/ fsm_state m = Some choose_forecast ->
  step m (TextMessage text) = m.
Proof. intros [H|H]; run_handler H. Qed.

Lemma has_value_some {A} (v : A) : has_value (Some v).
Proof. exists v. reflexivity. Qed.

(** Every handler keeps the fields collected so far. *)
Lemma step_fields_collected m upd :
  fields_collected m -> fields_collected (step m upd).
Proof.
  intros H. unfold fields_collected in H.
  destruct upd as [| | |text|data].
  - exact H.
  - exact H.
  - exact I.
  - destruct (fsm_state m) as [[]|] eqn:Hs.
    + rewrite (step_start_city _ _ Hs). apply has_value_some.
    + destruct (step_end_city m text Hs) as [Hs' Hd'].
      unfold fields_collected. rewrite Hs', Hd'.
      split; [exact H|apply has_value_some].
    + destruct (step_midpoints_text m text Hs) as [Hs' Hd'].
      unfold fields_collected. rewrite Hs', Hd'. exact H.
    + rewrite step_unhandled_text by (right; exact Hs).
      unfold fields_collected. rewrite Hs. exact H.
    + rewrite step_unhandled_text by (left; exact Hs).
      unfold fields_collected. rewrite Hs. exact I.
  - destruct (fsm_state m) as [[]|] eqn:Hs.
    + unfold fields_collected, step, dispatch. rewrite Hs. simpl.
      rewrite Hs. exact H.
    + unfold fields_collected, step, dispatch. rewrite Hs. simpl.
      rewrite Hs. exact H.
    + destruct (PyStr.eqb data (u "add_midpoints")) eqn:Hadd.
      { apply eqb_eq in Hadd. subst data.
        destruct (step_add_midpoints m Hs) as [Hs' Hd'].
        unfold fields_collected. rewrite Hs', Hd'. exact H. }
      destruct (PyStr.eqb data (u "skip_midpoints")) eqn:Hskip.
      { apply eqb_eq in Hskip. subst data.
        destruct (step_skip_midpoints m Hs) as [Hs' Hd'].
        unfold fields_collected. rewrite Hs', Hd'. exact H. }
      unfold fields_collected, step, dispatch. rewrite Hs, Hadd, Hskip.
      simpl. rewrite Hs. exact H.
    + destruct (PyStr.eqb data (u "3_days") || PyStr.eqb data (u "5_days"))
        eqn:Hchoice.
      * destruct H as [[start Hstart] [stop Hstop]].
        assert (Hc : data = u "3_days" \/ data = u "5_days").
        { apply orb_true_iff in Hchoice.
          destruct Hchoice as [E|E]; apply eqb_eq in E; auto. }
        rewrite (step_forecast_choice m data _ Hs Hc
                   (route_collected _ _ _ Hstart Hstop)).
        exact I.
      * unfold fields_collected, step, dispatch. rewrite Hs, Hchoice.
        simpl. rewrite Hs. exact H.
    + unfold fields_collected, step, dispatch. rewrite Hs. simpl.
      rewrite Hs. exact I.
Qed.

Lemma reachable_fields_collected m : reachable m -> fields_collected m.
Proof.
  induction 1 as [w|m upd _ IH].
  - exact I.
  - apply step_fields_collected. exact IH.
Qed.

Lemma parse_midpoints_filter_map text :
  parse_midpoints text = filter nonempty (map strip (split comma text)).
Proof.
  unfold parse_midpoints.
  induction (split comma text) as [|tok toks IH]; simpl; [reflexivity|].
  destruct (nonempty (strip tok)); simpl; rewrite IH; reflexivity.
Qed.

(** C9. In a conversation that has reached the forecast-length step, a
    choice of "3 days" or "5 days" makes the handler call the aggregator
    once, with the route built from the collected cities and with 3 or 5
    days; it sends the report when the aggregator returns and the failure
    notice when it raises, and in both cases leaves the conversation with
    no state and no data. *)
Theorem forecast_choice_resets m choice :
  reachable m ->
  fsm_state m = Some choose_forecast ->
  choice = u "3_days" \/ choice = u "5_days" ->
  exists start stop,
    start_city (fsm_data m) = Some start
    /\ end_city (fsm_data m) = Some stop
    /\ (days_of_choice choice = 3 \/ days_of_choice choice = 5)
    /\ let cities := [start] ++ midpoints_or_empty (fsm_data m) ++ [stop] in
       let run := generate_forecast cities (days_of_choice choice) (world m) in
       step m (Callback choice)
       = {| fsm_state := None;
            fsm_data := no_data;
            world := snd run;
            outbox := outbox m ++ [reply_of (fst run)] |}.
Proof.
  intros Hreach Hs Hchoice.
  pose proof (reachable_fields_collected m Hreach) as Hinv.
  unfold fields_collected in Hinv. rewrite Hs in Hinv.
  destruct Hinv as [[start Hstart] [stop Hstop]].
  exists start, stop. split; [exact Hstart|split; [exact Hstop|split]].
  - destruct Hchoice as [->| ->]; [left|right]; reflexivity.
  - cbv zeta.
    rewrite (step_forecast_choice m choice _ Hs Hchoice
               (route_collected _ _ _ Hstart Hstop)).
    reflexivity.
Qed.

(** C2. At the forecast-length step the aggregator is called with the
    start city, then the midpoints in their order, then the end city:
    nothing is reordered and nothing dropped. *)
Theorem route_is_start_midpoints_end m choice start mids stop :
  fsm_state m = Some choose_forecast ->
  choice = u "3_days" \/ choice = u "5_days" ->
  start_city (fsm_data m) = Some start ->
  midpoints (fsm_data m) = Some mids ->
  end_city (fsm_data m) = Some stop ->
  route (fsm_data m) = inr ([start] ++ mids ++ [stop])
  /\ step m (Callback choice)
     = after_forecast m ([start] ++ mids ++ [stop]) (days_of_choice choice).
Proof.
  intros Hs Hchoice Hstart Hmids Hstop.
  assert (Hroute : route (fsm_data m) = inr ([start] ++ mids ++ [stop])).
  { rewrite (route_collected _ _ _ Hstart Hstop).
    unfold midpoints_or_empty. rewrite Hmids. reflexivity. }
  split; [exact Hroute|].
  apply step_forecast_choice; assumption.
Qed.

(** C3. A text received while the midpoints are awaited is split on
    commas, each token is trimmed of white space, the tokens left empty
    are dropped, and what remains is stored as the midpoints, in the order
    of the text; the conversation moves on to the forecast-length step. *)
Theorem midpoints_text_stored m text :
  fsm_state m = Some input_midpoints ->
  midpoints (fsm_data (step m (TextMessage text)))
  = Some (filter nonempty (map strip (split comma text)))
  /\ join comma (split comma text) = text
  /\ Forall (fun tok => ~ In comma tok) (split comma text)
  /\ Forall (fun city => city <> [] /\ strip city = city)
       (filter nonempty (map strip (split comma text)))
  /\ fsm_state (step m (TextMessage text)) = Some choose_forecast.
Proof.
  intros Hs. destruct (step_midpoints_text m text Hs) as [Hs' Hd'].
  rewrite Hd'. simpl. rewrite parse_midpoints_filter_map.
  split; [reflexivity|]. split; [apply join_split|].
  split; [apply split_no_sep|]. split; [|exact Hs'].
  apply Forall_forall. intros city Hin.
  apply filter_In in Hin. destruct Hin as [Hin Hne].
  apply in_map_iff in Hin. destruct Hin as [tok [<- _]].
  split; [|apply strip_trimmed].
  intros E. rewrite E in Hne. discriminate.
Qed.

(** The midpoints step holds the conversation in [input_midpoints] until
    "skip" or a text arrives, and then hands it to [choose_forecast] with
    the start and end cities untouched. *)
Lemma midpoints_phase mids : midpoints_inputs mids ->
  forall m rest,
    fsm_state m = Some input_midpoints ->
    exists m',
      fsm_state m' = Some choose_forecast
      /\ start_city (fsm_data m') = start_city (fsm_data m)
      /\ end_city (fsm_data m') = end_city (fsm_data m)
      /\ visited (Some input_midpoints) (states_after m (mids ++ rest))
         = Some input_midpoints
             :: visited (Some choose_forecast) (states_after m' rest).
Proof.
  induction 1 as [|text|mids Hmids IH]; intros m rest Hs.
  - destruct (step_skip_midpoints m Hs) as [Hs' Hd'].
    exists (step m (Callback (u "skip_midpoints"))).
    split; [exact Hs'|]. rewrite Hd'. split; [reflexivity|].
    split; [reflexivity|]. simpl app. cbn [states_after visited].
    rewrite Hs'. reflexivity.
  - destruct (step_midpoints_text m text Hs) as [Hs' Hd'].
    exists (step m (TextMessage text)).
    split; [exact Hs'|]. rewrite Hd'. split; [reflexivity|].
    split; [reflexivity|]. simpl app. cbn [states_after visited].
    rewrite Hs'. reflexivity.
  - destruct (step_add_midpoints m Hs) as [Hs' Hd'].
    destruct (IH (step m (Callback (u "add_midpoints"))) rest Hs')
      as [m' [Hm' [Hstart [Hstop Hvisited]]]].
    exists m'. rewrite Hd' in Hstart, Hstop.
    split; [exact Hm'|]. split; [exact Hstart|]. split; [exact Hstop|].
    simpl app. cbn [states_after visited]. rewrite Hs'. exact Hvisited.
Qed.

(** C1. From a conversation with no state, every valid sequence of flow
    inputs takes the controller through no state, [input_start],
    [input_end], [input_midpoints], [choose_forecast] and no state again,
    in this order and each once. *)
Theorem flow_visits_states_in_order m inputs :
  fsm_state m = None ->
  valid_flow inputs ->
  visited (fsm_state m) (states_after m inputs)
  = [None; Some input_start; Some input_end; Some input_midpoints;
     Some choose_forecast; None].
Proof.
  intros Hidle Hvalid.
  destruct Hvalid as [start stop mids choice Hmids Hchoice].
  rewrite Hidle. cbn [app states_after]. rewrite step_weather.
  set (m1 := {| fsm_state := Some input_start; fsm_data := fsm_data m;
                world := world m;
                outbox := outbox m ++ [Answer (u "Введите начальный город:") []]
             |}).
  rewrite (step_start_city m1 start eq_refl).
  set (m2 := {| fsm_state := Some input_end;
                fsm_data := with_start_city start (fsm_data m1);
                world := world m1;
                outbox := outbox m1 ++ [Answer (u "Введите конечный город:") []]
             |}).
  destruct (step_end_city m2 stop eq_refl) as [Hs3 Hd3].
  set (m3 := step m2 (TextMessage stop)) in *.
  cbn [fsm_state visited same_state]. rewrite Hs3. cbn [visited same_state].
  destruct (midpoints_phase mids Hmids m3 [Callback choice] Hs3)
    as [m4 [Hs4 [Hstart [Hstop Hvisited]]]].
  rewrite Hvisited. cbn [states_after visited].
  rewrite Hd3 in Hstart, Hstop.
  rewrite (step_forecast_choice m4 choice _ Hs4 Hchoice
             (route_collected _ _ _ Hstart Hstop)).
  reflexivity.
Qed.

End DialogueFacts.


(** ** The program on concrete conversations *)

Module Runs.

Import Demo.

Lemma demo_contract : provider_contract (env := Demo.env).
Proof.
  split.
  - intros q w. unfold search_in_contract. simpl. unfold search. simpl.
    repeat match goal with
           | |- context [if ?b then _ else _] => destruct b
           end;
      (eexists; split; [reflexivity|]; simpl; intros Hst;
       first [ discriminate Hst
             | eexists; split; [reflexivity|];
               repeat constructor; eexists; reflexivity ]).
  - intros k w. unfold forecast_in_contract. simpl. unfold daily. simpl.
    destruct (PyStr.eqb k (u "100"));
      (eexists; split; [reflexivity|]; simpl; intros Hst);
      [|discriminate Hst].
    eexists; split; [reflexivity|]. intros v Hv. vm_compute in Hv.
    injection Hv as <-. eexists; split; [reflexivity|].
    repeat constructor; eexists; vm_compute; reflexivity.
Qed.

Lemma reachable_feed {env : Env} updates : forall m,
  reachable m -> reachable (feed m updates).
Proof.
  induction updates as [|upd rest IH]; intros m Hm; [exact Hm|].
  apply IH. constructor. exact Hm.
Qed.

(** The route of the specification's example, and a route that repeats a
    city. *)
Example route_abcd :
  route (fsm_data abcd) = inr [u "A"; u "C"; u "D"; u "B"].
Proof. reflexivity. Qed.

Example route_keeps_duplicates :
  route {| start_city := Some (u "A"); end_city := Some (u "A");
           midpoints := Some [u "A"; u "B"; u "A"]; days := Some 5 |}
  = inr [u "A"; u "A"; u "B"; u "A"; u "A"].
Proof. reflexivity. Qed.

Example parse_midpoints_example :
  parse_midpoints (u " Paris,  , London ,,") = [u "Paris"; u "London"].
Proof. vm_compute. reflexivity. Qed.

(** The specification's example of a failed resolution. *)
Example valid_and_garbage :
  generate_forecast [u "ValidCity"; u "GarbageCity123"] 3 0%nat
  = (inr [valid_city_3; marker "GarbageCity123"], 3%nat).
Proof. vm_compute. reflexivity. Qed.

(** With the provider out of reach the aggregator raises; the user gets
    the failure notice and the conversation is cleared all the same. *)
Example choice_when_offline :
  let m := {| fsm_state := Some choose_forecast;
              fsm_data := fsm_data abcd; world := 0%nat; outbox := [] |} in
  generate_forecast (env := offline) [u "A"; u "C"; u "D"; u "B"] 5 0%nat
  = (inl ClientError, 1%nat)
  /\ step (env := offline) m (Callback (u "5_days"))
     = {| fsm_state := None; fsm_data := no_data; world := 1%nat;
          outbox :=
            [Answer (u "Произошла ошибка. Пожалуйста, попробуйте позже.") []]
       |}.
Proof. split; vm_compute; reflexivity. Qed.


(** *** The theorems at concrete inputs *)

Lemma flow_visits_states_in_order_demo :
  fsm_state (fresh 0%nat) = None
  /\ valid_flow conversation
  /\ visited None (states_after (fresh 0%nat) conversation)
     = [None; Some input_start; Some input_end; Some input_midpoints;
        Some choose_forecast; None].
Proof.
  assert (Hvalid : valid_flow conversation).
  { apply (valid_flow_intro (u "ValidCity") (u "Moscow")
             [Callback (u "add_midpoints");
              TextMessage (u " Paris,  , London ,,")] (u "3_days")).
    - apply midpoints_add. apply midpoints_text.
    - left. reflexivity. }
  split; [reflexivity|]. split; [exact Hvalid|].
  exact (flow_visits_states_in_order (env := Demo.env) (fresh 0%nat) conversation
           eq_refl Hvalid).
Defined.

Lemma route_is_start_midpoints_end_demo :
  fsm_state abcd = Some choose_forecast
  /\ route (fsm_data abcd) = inr [u "A"; u "C"; u "D"; u "B"]
  /\ step abcd (Callback (u "3_days"))
     = after_forecast abcd [u "A"; u "C"; u "D"; u "B"] 3.
Proof.
  split; [reflexivity|].
  exact (route_is_start_midpoints_end (env := Demo.env) abcd (u "3_days")
           (u "A") [u "C"; u "D"] (u "B")
           eq_refl (or_introl eq_refl) eq_refl eq_refl eq_refl).
Defined.

Lemma midpoints_text_stored_demo :
  fsm_state awaiting_midpoints = Some input_midpoints
  /\ midpoints
       (fsm_data
          (step awaiting_midpoints (TextMessage (u " Paris,  , London ,,"))))
     = Some [u "Paris"; u "London"].
Proof.
  split; [reflexivity|].
  exact (proj1 (midpoints_text_stored (env := Demo.env) awaiting_midpoints
                  (u " Paris,  , London ,,") eq_refl)).
Defined.

Lemma forecast_truncated_to_days_demo :
  (List.length five_days = 5%nat
   /\ generate_forecast [u "GarbageCity123"] 3 0%nat
      = (inr [marker "GarbageCity123"], 1%nat)
   /\ fetch_location_key (u "ValidCity") 1%nat = (inr (JStr (u "100")), 2%nat)
   /\ fetch_weather_forecast (JStr (u "100")) 2%nat
      = (inr (JArr five_days), 3%nat)
   /\ generate_forecast [u "GarbageCity123"; u "ValidCity"; u "Moscow"] 3 0%nat
      = (inr [marker "GarbageCity123"; valid_city_3; moscow_empty], 5%nat))
  /\ exists ds,
       nth_error [marker "GarbageCity123"; valid_city_3; moscow_empty] 1
       = Some {| location := u "ValidCity"; forecast := Days ds |}
       /\ Z.of_nat (List.length ds) <= 3
       /\ Forall2 (fun e d => day_of_entry e = inr d) (firstn 3 five_days) ds
       /\ (3 <= Z.of_nat (List.length five_days) ->
           Z.of_nat (List.length ds) = 3).
Proof.
  split.
  - repeat split; vm_compute; reflexivity.
  - apply (forecast_truncated_to_days (env := Demo.env)
             [u "GarbageCity123"] (u "ValidCity") [u "Moscow"] 3 0%nat
             [marker "GarbageCity123"] 1%nat (JStr (u "100")) 2%nat
             five_days 3%nat
             [marker "GarbageCity123"; valid_city_3; moscow_empty] 5%nat).
    + lia.
    + vm_compute; reflexivity.
    + vm_compute; reflexivity.
    + reflexivity.
    + vm_compute; reflexivity.
    + vm_compute; reflexivity.
Defined.

Lemma resolution_failure_isolated_demo :
  (generate_forecast [u "ValidCity"] 3 0%nat = (inr [valid_city_3], 2%nat)
   /\ fetch_location_key (u "GarbageCity123") 2%nat = (inr JNull, 3%nat)
   /\ generate_forecast [u "Moscow"] 3 3%nat = (inr [moscow_empty], 5%nat))
  /\ generate_forecast [u "ValidCity"; u "GarbageCity123"; u "Moscow"] 3 0%nat
     = (inr [valid_city_3; marker "GarbageCity123"; moscow_empty], 5%nat).
Proof.
  assert (Hpre : generate_forecast [u "ValidCity"] 3 0%nat
                 = (inr [valid_city_3], 2%nat))
    by (vm_compute; reflexivity).
  assert (Hkey : fetch_location_key (u "GarbageCity123") 2%nat
                 = (inr JNull, 3%nat))
    by (vm_compute; reflexivity).
  assert (Hpost : generate_forecast [u "Moscow"] 3 3%nat
                  = (inr [moscow_empty], 5%nat))
    by (vm_compute; reflexivity).
  split; [repeat split; assumption|].
  pose proof (proj1 (resolution_failure_isolated (env := Demo.env)
                       [u "ValidCity"] (u "GarbageCity123") [u "Moscow"]
                       3 0%nat [valid_city_3] 2%nat JNull 3%nat
                       Hpre Hkey eq_refl)) as H.
  rewrite Hpost in H. exact H.
Defined.

Lemma fetch_location_key_spec_demo :
  search_request (u "ValidCity") 0%nat = (Responded valid_city_found, 1%nat)
  /\ has_key (candidate "100" "Valid City") (u "100")
  /\ fetch_location_key (u "ValidCity") 0%nat = (inr (JStr (u "100")), 1%nat)
  /\ (fst (fetch_location_key (u "ValidCity") 0%nat) = inr JNull
      <-> status valid_city_found <> 200
          \/ body valid_city_found = Some (JArr [])).
Proof.
  assert (Hcontract :
            status valid_city_found = 200 ->
            exists cands, body valid_city_found = Some (JArr cands)
              /\ forall c rest, cands = c :: rest -> exists k, has_key c k).
  { intros _. eexists. split; [reflexivity|].
    intros c rest Hc. injection Hc as <- _. eexists. reflexivity. }
  pose proof (fetch_location_key_spec (env := Demo.env) (u "ValidCity") 0%nat
                valid_city_found 1%nat eq_refl Hcontract) as [Hiff Hfirst].
  split; [reflexivity|]. split; [reflexivity|]. split; [|exact Hiff].
  destruct (Hfirst _ _ eq_refl eq_refl) as [k [Hhas Hk]].
  vm_compute in Hhas. injection Hhas as <-. exact Hk.
Defined.

Lemma forecast_data_for_spec_demo :
  forecast_request (u "100") 0%nat = (Responded valid_city_forecast, 1%nat)
  /\ forecast_data_for (JStr (u "100")) 3 0%nat
     = (inr (JArr (firstn 3 five_days)), 1%nat)
  /\ forecast_request (u "294021") 0%nat = (Responded forecast_refused, 1%nat)
  /\ forecast_data_for (JStr (u "294021")) 3 0%nat = (inr (JArr []), 1%nat).
Proof.
  split; [reflexivity|]. split.
  - exact (proj2 (proj2 (forecast_data_for_spec (env := Demo.env) (JStr (u "100")) 3 0%nat
                           valid_city_forecast 1%nat eq_refl)
                    _ five_days eq_refl eq_refl eq_refl
                    ltac:(discriminate))).
  - split; [reflexivity|].
    exact (proj2 (proj1 (forecast_data_for_spec (env := Demo.env) (JStr (u "294021")) 3 0%nat
                           forecast_refused 1%nat eq_refl)
                    ltac:(discriminate))).
Defined.

(** C8, as the claim states it, fails. Moscow resolves and its forecast
    request is refused: the aggregator's entry for it is an empty list of
    days, and the report it yields is not the report of a city that did
    not resolve. *)
Lemma fetch_failure_not_shown_as_no_data :
  fetch_location_key (u "Moscow") 0%nat = (inr (JStr (u "294021")), 1%nat)
  /\ forecast_request (u "294021") 1%nat = (Responded forecast_refused, 2%nat)
  /\ status forecast_refused <> 200
  /\ generate_forecast [u "Moscow"] 3 0%nat = (inr [moscow_empty], 2%nat)
  /\ forecast moscow_empty <> NoData
  /\ format_forecast [moscow_empty] <> format_forecast [marker "Moscow"].
Proof.
  repeat split; try (vm_compute; reflexivity); vm_compute; discriminate.
Qed.

Lemma fetch_failure_gives_empty_forecast_demo :
  (generate_forecast [u "ValidCity"] 3 0%nat = (inr [valid_city_3], 2%nat)
   /\ fetch_location_key (u "Moscow") 2%nat
      = (inr (JStr (u "294021")), 3%nat)
   /\ forecast_request (u "294021") 3%nat
      = (Responded forecast_refused, 4%nat)
   /\ status forecast_refused <> 200
   /\ generate_forecast [u "GarbageCity123"] 3 4%nat
      = (inr [marker "GarbageCity123"], 5%nat))
  /\ generate_forecast [u "ValidCity"; u "Moscow"; u "GarbageCity123"] 3 0%nat
     = (inr [valid_city_3; moscow_empty; marker "GarbageCity123"], 5%nat)
  /\ format_forecast [moscow_empty]
     = u "Прогноз погоды для Moscow:" ++ nl ++ nl.
Proof.
  assert (Hpre : generate_forecast [u "ValidCity"] 3 0%nat
                 = (inr [valid_city_3], 2%nat))
    by (vm_compute; reflexivity).
  assert (Hkey : fetch_location_key (u "Moscow") 2%nat
                 = (inr (JStr (u "294021")), 3%nat))
    by (vm_compute; reflexivity).
  assert (Hst : status forecast_refused <> 200) by discriminate.
  assert (Hpost : generate_forecast [u "GarbageCity123"] 3 4%nat
                  = (inr [marker "GarbageCity123"], 5%nat))
    by (vm_compute; reflexivity).
  split; [repeat split; try assumption; reflexivity|].
  pose proof (fetch_failure_gives_empty_forecast (env := Demo.env)
                [u "ValidCity"] (u "Moscow") [u "GarbageCity123"]
                3 0%nat [valid_city_3] 2%nat (JStr (u "294021")) 3%nat
                forecast_refused 4%nat Hpre Hkey eq_refl eq_refl Hst)
    as [Hrun [Hempty _]].
  rewrite Hpost in Hrun. split; [exact Hrun|].
  unfold moscow_empty. rewrite Hempty. vm_compute. reflexivity.
Defined.

Lemma forecast_choice_resets_demo :
  (reachable awaiting_choice
   /\ fsm_state awaiting_choice = Some choose_forecast)
  /\ step awaiting_choice (Callback (u "3_days"))
     = {| fsm_state := None;
          fsm_data := no_data;
          world := 4%nat;
          outbox :=
            outbox awaiting_choice
              ++ [Answer (format_forecast [valid_city_3; moscow_empty]) []]
       |}.
Proof.
  assert (Hreach : reachable awaiting_choice).
  { unfold awaiting_choice. apply reachable_feed. constructor. }
  split; [split; [exact Hreach|reflexivity]|].
  destruct (forecast_choice_resets (env := Demo.env) awaiting_choice
              (u "3_days") Hreach eq_refl (or_introl eq_refl))
    as [start [stop [Hstart [Hstop [_ Hstep]]]]].
  vm_compute in Hstart. injection Hstart as <-.
  vm_compute in Hstop. injection Hstop as <-.
  rewrite Hstep. vm_compute. reflexivity.
Defined.

Lemma generate_forecast_locations_demo :
  provider_contract (env := Demo.env)
  /\ (exists rs w',
        generate_forecast
          [u "ValidCity"; u "GarbageCity123"; u "Moscow"] 5 0%nat
        = (inr rs, w'))
  /\ generate_forecast [u "ValidCity"; u "GarbageCity123"; u "Moscow"] 3 0%nat
     = (inr [valid_city_3; marker "GarbageCity123"; moscow_empty], 5%nat)
  /\ map location [valid_city_3; marker "GarbageCity123"; moscow_empty]
     = [u "ValidCity"; u "GarbageCity123"; u "Moscow"].
Proof.
  split; [exact demo_contract|]. split.
  - exact (proj1 (generate_forecast_locations (env := Demo.env)
                    [u "ValidCity"; u "GarbageCity123"; u "Moscow"] 5 0%nat)
             demo_contract).
  - split; vm_compute; reflexivity.
Defined.

End Runs.


(** * Further properties *)

(** ** The report *)

Section FormatterFacts.

Context {env : Env}.

Lemma format_days_fold l : forall result,
  fold_left format_day l result = result ++ List.concat (map day_line l).
Proof.
  induction l as [|day l IH]; intros result;
    cbn [fold_left map List.concat].
  - symmetry. apply app_nil_r.
  - rewrite IH. unfold format_day, day_line. rewrite <- !app_assoc.
    reflexivity.
Qed.

Lemma format_city_block result city_data :
  format_city result city_data = result ++ city_block city_data.
Proof.
  unfold format_city, city_block.
  destruct (forecast city_data) as [|l].
  - rewrite <- !app_assoc. reflexivity.
  - rewrite format_days_fold, <- !app_assoc. reflexivity.
Qed.

Lemma format_cities_fold rs : forall result,
  fold_left format_city rs result
  = result ++ List.concat (map city_block rs).
Proof.
  induction rs as [|r rs IH]; intros result;
    cbn [fold_left map List.concat].
  - symmetry. apply app_nil_r.
  - rewrite IH, format_city_block. symmetry. apply app_assoc.
Qed.

(** X1. The report of two result lists put end to end is the report of
    the first followed by the report of the second: a city's part of the
    report does not depend on the cities around it. *)
Theorem format_forecast_app rs1 rs2 :
  format_forecast (rs1 ++ rs2) = format_forecast rs1 ++ format_forecast rs2.
Proof.
  unfold format_forecast. rewrite fold_left_app, !format_cities_fold.
  reflexivity.
Qed.

(** X2. The report is the blocks of the cities, in the order of the
    results: a header line with the city's name, then the line that says
    data is unavailable and a blank line for the marker, or one line per
    day, and a blank line. *)
Theorem format_forecast_blocks rs :
  format_forecast rs = List.concat (map city_block rs).
Proof.
  unfold format_forecast. rewrite format_cities_fold. reflexivity.
Qed.

End FormatterFacts.

(** ** The midpoints text *)

Module MidpointsFacts.

Import PyStrFacts.

Lemma split_cons_not_sep sep c s :
  (c =? sep)%N = false ->
  split sep (c :: s)
  = match split sep s with
    | tok :: toks => (c :: tok) :: toks
    | [] => [[c]]
    end.
Proof. intros H. simpl. rewrite H. reflexivity. Qed.

(** Splitting a token without separator, followed by a separator and more
    text. *)
Lemma split_app_sep sep tok s :
  ~ In sep tok ->
  split sep (tok ++ sep :: s) = tok :: split sep s.
Proof.
  induction tok as [|c tok IH]; intros Hno; simpl.
  - rewrite N.eqb_refl. reflexivity.
  - destruct (N.eqb_spec c sep) as [->|Hne].
    + exfalso. apply Hno. left. reflexivity.
    + rewrite IH; [reflexivity|]. intros H. apply Hno. right. exact H.
Qed.

Lemma split_no_sep_token sep tok : ~ In sep tok -> split sep tok = [tok].
Proof.
  induction tok as [|c tok IH]; intros Hno; simpl; [reflexivity|].
  destruct (N.eqb_spec c sep) as [->|Hne].
  - exfalso. apply Hno. left. reflexivity.
  - rewrite IH; [reflexivity|]. intros H. apply Hno. right. exact H.
Qed.

(** Splitting what was joined gives the tokens back. *)
Lemma split_join sep toks :
  toks <> [] ->
  Forall (fun tok => ~ In sep tok) toks ->
  split sep (join sep toks) = toks.
Proof.
  induction toks as [|tok toks IH]; intros Hne Hall; [contradiction|].
  inversion Hall as [|? ? Htok Htoks]; subst.
  destruct toks as [|tok' toks].
  - simpl. apply split_no_sep_token. exact Htok.
  - change (join sep (tok :: tok' :: toks))
      with (tok ++ sep :: join sep (tok' :: toks)).
    rewrite split_app_sep by exact Htok.
    rewrite IH; [reflexivity|discriminate|exact Htoks].
Qed.

Lemma strip_In c s : In c (strip s) -> In c s.
Proof.
  intros H. destruct (strip_spec s) as [l [r [Heq _]]].
  rewrite Heq. apply in_or_app. right. apply in_or_app. left. exact H.
Qed.

Lemma lstrip_all_space s : forallb isspace s = true -> lstrip s = [].
Proof.
  induction s as [|c s IH]; simpl; [reflexivity|].
  intros H. apply andb_true_iff in H. destruct H as [Hc Hs].
  rewrite Hc. apply IH. exact Hs.
Qed.

Lemma strip_all_space s : forallb isspace s = true -> strip s = [].
Proof.
  intros H. unfold strip, rstrip. rewrite (lstrip_all_space s H).
  reflexivity.
Qed.

Lemma strip_nil_all_space s : strip s = [] -> forallb isspace s = true.
Proof.
  intros H. destruct (strip_spec s) as [l [r [Heq [Hl [Hr _]]]]].
  rewrite H in Heq. simpl in Heq. rewrite Heq, forallb_app, Hl, Hr.
  reflexivity.
Qed.

Lemma nonempty_false s : nonempty s = false <-> s = [].
Proof. destruct s; simpl; split; congruence. Qed.

(** Every character of the text is in a token or is a separator. *)
Lemma split_covers sep s c :
  In c s -> c = sep \/ exists tok, In tok (split sep s) /\ In c tok.
Proof.
  intros H. rewrite <- (join_split sep s) in H.
  induction (split sep s) as [|tok toks IH]; simpl in H; [contradiction|].
  destruct toks as [|tok' toks].
  - right. exists tok. split; [left; reflexivity|exact H].
  - apply in_app_or in H. destruct H as [H|[H|H]].
    + right. exists tok. split; [left; reflexivity|exact H].
    + left. symmetry. exact H.
    + destruct (IH H) as [E|[t [Ht Hc]]]; [left; exact E|].
      right. exists t. split; [right; exact Ht|exact Hc].
Qed.

Lemma token_chars sep s tok c :
  In tok (split sep s) -> In c tok -> In c s.
Proof.
  intros Htok Hc. rewrite <- (join_split sep s).
  induction (split sep s) as [|t toks IH]; [contradiction|].
  destruct toks as [|t' toks].
  - destruct Htok as [->|[]]. exact Hc.
  - change (join sep (t :: t' :: toks)) with (t ++ sep :: join sep (t' :: toks)).
    apply in_or_app. destruct Htok as [->|Htok]; [left; exact Hc|].
    right. right. apply IH. exact Htok.
Qed.

(** X3. Every midpoint that [handle_midpoints] stores is a clean city
    name: not empty, without white space at its ends and without a
    comma. *)
Theorem parse_midpoints_clean text :
  Forall clean_city (parse_midpoints text).
Proof.
  unfold parse_midpoints. apply Forall_forall. intros city Hin.
  apply in_map_iff in Hin. destruct Hin as [tok [<- Htok]].
  apply filter_In in Htok. destruct Htok as [Htok Hne].
  split; [|split].
  - intros E. rewrite E in Hne. discriminate.
  - apply strip_trimmed.
  - intros Hc. apply strip_In in Hc.
    pose proof (split_no_sep comma text) as Hall.
    rewrite Forall_forall in Hall. exact (Hall tok Htok Hc).
Qed.

(** X4. Clean city names written with commas between them are read back
    as they were: the same names, in the same order. *)
Theorem parse_midpoints_join cities :
  Forall clean_city cities ->
  parse_midpoints (join comma cities) = cities.
Proof.
  intros Hclean. unfold parse_midpoints.
  destruct cities as [|city cities]; [reflexivity|].
  rewrite split_join.
  - induction Hclean as [|c cs [Hne [Hstrip _]] _ IH]; [reflexivity|].
    simpl. rewrite Hstrip.
    destruct c as [|x c]; [contradiction|]. simpl.
    rewrite Hstrip, IH. reflexivity.
  - discriminate.
  - apply Forall_impl with (P := clean_city); [|exact Hclean].
    intros c [_ [_ H]]. exact H.
Qed.

(** X5. No midpoint is stored exactly when the text holds nothing but
    commas and white space. *)
Theorem parse_midpoints_nil_iff text :
  parse_midpoints text = []
  <-> Forall (fun c => c = comma \/ isspace c = true) text.
Proof.
  unfold parse_midpoints. split.
  - intros H. apply Forall_forall. intros c Hc.
    destruct (split_covers comma text c Hc) as [E|[tok [Htok Hin]]];
      [left; exact E|right].
    destruct (nonempty (strip tok)) eqn:Hne.
    + assert (Hmem : In (strip tok)
                       (map strip
                          (filter (fun city => nonempty (strip city))
                             (split comma text)))).
      { apply in_map. apply filter_In. split; assumption. }
      rewrite H in Hmem. contradiction.
    + apply nonempty_false in Hne. apply strip_nil_all_space in Hne.
      rewrite forallb_forall in Hne. apply Hne. exact Hin.
  - intros H. rewrite Forall_forall in H.
    assert (Hnone : filter (fun city => nonempty (strip city))
                      (split comma text) = []).
    { assert (Hall : forall tok, In tok (split comma text) ->
                       nonempty (strip tok) = false).
      { intros tok Htok. apply nonempty_false. apply strip_all_space.
        apply forallb_forall. intros c Hc.
        destruct (H c (token_chars comma text tok c Htok Hc)) as [E|E];
          [|exact E].
        exfalso. subst c.
        pose proof (split_no_sep comma text) as Hsep.
        rewrite Forall_forall in Hsep. exact (Hsep tok Htok Hc). }
      induction (split comma text) as [|tok toks IH]; [reflexivity|].
      simpl. rewrite (Hall tok (or_introl eq_refl)).
      apply IH. intros t Ht. apply Hall. right. exact Ht. }
    rewrite Hnone. reflexivity.
Qed.

End MidpointsFacts.


(** ** The aggregator when the provider misbehaves *)

Section AggregatorEdges.

Context {env : Env}.

Import PyStrFacts.

Lemma session_get_failed request w w' :
  request w = (RequestFailed, w') ->
  session_get request w = (inl ClientError, w').
Proof. intros H. unfold session_get. rewrite H. reflexivity. Qed.

Lemma city_step_search_failed city days w w' :
  search_request city w = (RequestFailed, w') ->
  city_step city days w = (inl ClientError, w').
Proof.
  intros H. unfold city_step, fetch_location_key, bind.
  rewrite (session_get_failed _ _ _ H). reflexivity.
Qed.

Lemma city_step_forecast_failed city days w key w1 w2 :
  fetch_location_key city w = (inr key, w1) ->
  truthy key = true ->
  forecast_request (py_str key) w1 = (RequestFailed, w2) ->
  city_step city days w = (inl ClientError, w2).
Proof.
  intros Hkey Htruthy H.
  rewrite (city_step_resolved _ _ _ _ _ Hkey Htruthy).
  unfold forecast_data_for, fetch_weather_forecast, bind.
  rewrite (session_get_failed _ _ _ H). reflexivity.
Qed.

Lemma generate_forecast_single city days w :
  generate_forecast [city] days w =
  match city_step city days w with
  | (inr r, w1) => (inr [r], w1)
  | (inl e, w1) => (inl e, w1)
  end.
Proof.
  rewrite generate_forecast_cons.
  destruct (city_step city days w) as [[e|r] w1]; reflexivity.
Qed.

(** X6. When the aggregator raises on some stretch of the cities, it
    raises the same exception on any list that holds this stretch after
    cities it can process: no result is returned, not even for the cities
    already processed, and the cities after the stretch are never
    requested. *)
Theorem generate_forecast_aborts pre mid post days w rs_pre w1 e w2 :
  generate_forecast pre days w = (inr rs_pre, w1) ->
  generate_forecast mid days w1 = (inl e, w2) ->
  generate_forecast (pre ++ mid ++ post) days w = (inl e, w2).
Proof.
  intros Hpre Hmid.
  rewrite generate_forecast_app, Hpre, generate_forecast_app, Hmid.
  reflexivity.
Qed.

(** X7. A request that gets no response, be it the search for a city or
    the forecast request for its key, ends the aggregator with that
    error: the cities before it yield nothing and those after it are not
    looked up. *)
Theorem request_failure_ends_aggregation
    pre city post days w rs_pre w1 w2 :
  generate_forecast pre days w = (inr rs_pre, w1) ->
  search_request city w1 = (RequestFailed, w2)
  \/ (exists key w',
        fetch_location_key city w1 = (inr key, w')
        /\ truthy key = true
        /\ forecast_request (py_str key) w' = (RequestFailed, w2)) ->
  generate_forecast (pre ++ city :: post) days w = (inl ClientError, w2).
Proof.
  intros Hpre Hfail.
  rewrite generate_forecast_app, Hpre, generate_forecast_cons.
  destruct Hfail as [H|[key [w' [Hkey [Htruthy H]]]]].
  - rewrite (city_step_search_failed _ days _ _ H). reflexivity.
  - rewrite (city_step_forecast_failed _ days _ _ _ _ Hkey Htruthy H).
    reflexivity.
Qed.

Lemma slice_to_short {A} (l : list A) n :
  0 <= n -> Z.of_nat (List.length (slice_to l n)) <= n.
Proof.
  intros Hn. rewrite slice_to_firstn by exact Hn. rewrite length_firstn. lia.
Qed.

Lemma comprehension_length {A B} (f : A -> exn + B) l ys :
  comprehension f l = inr ys -> List.length ys = List.length l.
Proof.
  intros H. apply comprehension_Forall2 in H.
  symmetry. exact (Forall2_length H).
Qed.

(** What [forecast_data_for] returns can be iterated, and has at most
    [days] elements. *)
Lemma forecast_data_for_short key days w fd w' :
  0 <= days ->
  forecast_data_for key days w = (inr fd, w') ->
  exists entries,
    iterate fd = inr entries /\ Z.of_nat (List.length entries) <= days.
Proof.
  intros Hdays. unfold forecast_data_for, bind.
  destruct (fetch_weather_forecast key w) as [[e|v] w1]; [discriminate|].
  unfold lift. intros H. injection H as Hslice _.
  destruct v; simpl in Hslice; try discriminate;
    injection Hslice as <-; simpl; eexists; split; try reflexivity.
  - rewrite length_map. apply slice_to_short. exact Hdays.
  - apply slice_to_short. exact Hdays.
Qed.

Lemma city_step_short city days w r w' :
  0 <= days ->
  city_step city days w = (inr r, w') ->
  match forecast r with
  | NoData => True
  | Days ds => Z.of_nat (List.length ds) <= days
  end.
Proof.
  intros Hdays. unfold city_step, bind.
  destruct (fetch_location_key city w) as [[e|key] w0]; [discriminate|].
  destruct (negb (truthy key)).
  - unfold ret. intros H. injection H as <- _. exact I.
  - destruct (forecast_data_for key days w0) as [[e|fd] w2] eqn:Hfd;
      [discriminate|].
    destruct (forecast_data_for_short _ _ _ _ _ Hdays Hfd)
      as [entries [Hiter Hlen]].
    unfold lift. rewrite Hiter. simpl.
    destruct (comprehension day_of_entry entries) as [e|ds] eqn:Hds;
      [discriminate|].
    unfold ret. intros H. injection H as <- _. simpl.
    rewrite (comprehension_length _ _ _ Hds). exact Hlen.
Qed.

(** X8. Whatever the provider sends, no city of the aggregator's output
    has more than [days] days. *)
Theorem never_more_than_days cities days : forall w rs w',
  0 <= days ->
  generate_forecast cities days w = (inr rs, w') ->
  Forall (fun r => match forecast r with
                   | NoData => True
                   | Days ds => Z.of_nat (List.length ds) <= days
                   end) rs.
Proof.
  induction cities as [|city rest IH]; intros w rs w' Hdays H.
  - injection H as <- _. constructor.
  - rewrite generate_forecast_cons in H.
    destruct (city_step city days w) as [[e|r] w1] eqn:Hstep; [discriminate|].
    destruct (generate_forecast rest days w1) as [[e|rs'] w2] eqn:Hrest;
      [discriminate|].
    injection H as <- _. constructor.
    + exact (city_step_short _ _ _ _ _ Hdays Hstep).
    + exact (IH _ _ _ Hdays Hrest).
Qed.

Lemma split_head sep s tok toks :
  split sep s = tok :: toks ->
  ~ In sep tok /\ (s = tok \/ exists rest, s = tok ++ sep :: rest).
Proof.
  intros H. split.
  - pose proof (split_no_sep sep s) as Hall. rewrite H in Hall.
    inversion Hall. assumption.
  - pose proof (join_split sep s) as Hjoin. rewrite H in Hjoin.
    destruct toks as [|tok' toks].
    + left. symmetry. exact Hjoin.
    + right. exists (join sep (tok' :: toks)). symmetry. exact Hjoin.
Qed.

(** X9. The date of a day is the provider's ["Date"] text up to its
    first [T]: the time of day is dropped, and a text without [T] is kept
    whole. *)
Theorem day_of_entry_date entry d :
  day_of_entry entry = inr d ->
  exists s,
    getitem entry (u "Date") = inr (JStr s)
    /\ ~ In letter_T (date d)
    /\ (s = date d \/ exists rest, s = date d ++ letter_T :: rest).
Proof.
  unfold day_of_entry. intros H.
  destruct (getitem entry (u "Date")) as [e|v]; [discriminate|].
  cbn [and_then] in H.
  destruct v as [| | | |s| |]; try discriminate.
  cbn [method_split and_then] in H.
  destruct (split letter_T s) as [|p parts] eqn:Hsplit; [discriminate|].
  cbn [and_then] in H.
  repeat match type of H with
         | and_then ?r _ = _ =>
             destruct r; cbn [and_then] in H; [discriminate|]
         end.
  injection H as <-. cbn [date].
  exists s. split; [reflexivity|].
  exact (split_head _ _ _ _ Hsplit).
Qed.

(** X10. A forecast response with status 200 whose payload has no
    ["DailyForecasts"] gives the city an empty list of days; nothing is
    raised. *)
Theorem missing_daily_forecasts_is_empty
    city days w key w1 r w2 items :
  fetch_location_key city w = (inr key, w1) ->
  truthy key = true ->
  forecast_request (py_str key) w1 = (Responded r, w2) ->
  status r = 200 ->
  body r = Some (JObj items) ->
  dict_lookup (u "DailyForecasts") items = None ->
  generate_forecast [city] days w
  = (inr [{| location := city; forecast := Days [] |}], w2).
Proof.
  intros Hkey Htruthy Hreq Hst Hbody Hnone.
  rewrite generate_forecast_single.
  rewrite (city_step_resolved _ _ _ _ _ Hkey Htruthy).
  unfold forecast_data_for, bind.
  rewrite (fetch_weather_forecast_ok _ _ _ _ _ Hreq Hst Hbody), Hnone.
  unfold lift. cbn [getslice]. rewrite slice_to_nil. reflexivity.
Qed.

(** X11. The entries after the first [days] are never read: when the
    first [days] entries can be read, the city gets their days, whatever
    follows them in the provider's list. *)
Theorem later_entries_are_not_read
    city days w key w1 good rest w2 ds :
  fetch_location_key city w = (inr key, w1) ->
  truthy key = true ->
  fetch_weather_forecast key w1 = (inr (JArr (good ++ rest)), w2) ->
  Z.of_nat (List.length good) = days ->
  comprehension day_of_entry good = inr ds ->
  generate_forecast [city] days w
  = (inr [{| location := city; forecast := Days ds |}], w2).
Proof.
  intros Hkey Htruthy Hfetch Hlen Hgood.
  rewrite generate_forecast_single.
  rewrite (city_step_resolved _ _ _ _ _ Hkey Htruthy).
  unfold forecast_data_for, bind. rewrite Hfetch.
  unfold lift. cbn [getslice iterate and_then].
  rewrite slice_to_firstn by lia.
  replace (Z.to_nat days) with (List.length good + 0)%nat by lia.
  rewrite firstn_app_2. cbn [firstn]. rewrite app_nil_r, Hgood.
  reflexivity.
Qed.

Lemma fetch_location_key_falsy city w r w' data :
  search_request city w = (Responded r, w') ->
  status r = 200 ->
  body r = Some data ->
  truthy data = false ->
  fetch_location_key city w = (inr JNull, w').
Proof.
  intros Hreq Hst Hbody Hfalsy. unfold fetch_location_key, bind, session_get.
  rewrite Hreq, Hst. cbn [Z.eqb negb Pos.eqb]. unfold lift, response_json.
  rewrite Hbody, Hfalsy. reflexivity.
Qed.

(** X21. A search answered with status 200 and a payload that counts as
    false (an empty list, an empty object, null), or whose first
    candidate has a key that counts as false (an empty text, zero, null),
    is a city without data: it gets the marker, nothing is raised, and no
    forecast is requested for it. *)
Theorem falsy_answers_are_no_data city days w r w' data :
  search_request city w = (Responded r, w') ->
  status r = 200 ->
  body r = Some data ->
  truthy data = false
  \/ (exists c rest k,
        data = JArr (c :: rest)
        /\ getitem c (u "Key") = inr k /\ truthy k = false) ->
  generate_forecast [city] days w
  = (inr [{| location := city; forecast := NoData |}], w').
Proof.
  intros Hreq Hst Hbody Hcase. rewrite generate_forecast_single.
  destruct Hcase as [Hfalsy|[c [rest [k [-> [Hk Hfalsy]]]]]].
  - rewrite (city_step_not_found _ days _ _ _
               (fetch_location_key_falsy _ _ _ _ _ Hreq Hst Hbody Hfalsy)
               eq_refl).
    reflexivity.
  - pose proof (fetch_location_key_first _ _ _ _ _ _ Hreq Hst Hbody) as Hkey.
    rewrite Hk in Hkey.
    rewrite (city_step_not_found _ days _ _ _ Hkey Hfalsy). reflexivity.
Qed.

End AggregatorEdges.


(** ** The handlers, update by update *)

Section HandlerFacts.

Context {env : Env}.

Import PyStrFacts.

(** The cases of [dispatch]: the update, the state, and the tests on the
    callback data. *)
Ltac dispatch_cases m upd Hs :=
  unfold step, dispatch;
  destruct upd as [| | |?text|?data];
  destruct (fsm_state m) as [[]|] eqn:Hs;
  repeat match goal with
         | |- context [if ?b then _ else _] => destruct b eqn:?
         end.

Lemma choice_of_test data :
  PyStr.eqb data (u "3_days") || PyStr.eqb data (u "5_days") = true ->
  data = u "3_days" \/ data = u "5_days".
Proof.
  intros H. apply orb_true_iff in H.
  destruct H as [E|E]; apply eqb_eq in E; auto.
Qed.

(** The provider is left alone by every handler but that of the
    forecast-length choice. *)
Lemma step_keeps_world m upd :
  fsm_state m <> Some choose_forecast ->
  world (step m upd) = world m.
Proof.
  intros Hnot. dispatch_cases m upd Hs; try reflexivity.
  all: exfalso; apply Hnot; reflexivity.
Qed.

(** X12. No update but an accepted forecast-length choice makes the bot
    contact the provider: until then the provider's world is as it
    was. *)
Theorem only_the_choice_reaches_the_provider m upd :
  world (step m upd) = world m
  \/ (fsm_state m = Some choose_forecast
      /\ exists choice,
           upd = Callback choice
           /\ (choice = u "3_days" \/ choice = u "5_days")).
Proof.
  dispatch_cases m upd Hs; try (left; reflexivity).
  right. split; [reflexivity|]. eexists. split; [reflexivity|].
  apply choice_of_test. assumption.
Qed.

(** What one update does to the state and the data of a conversation
    whose fields are collected: nothing, a restart by /weather, or the
    step of the current state. *)
Lemma step_outcome m upd :
  fields_collected m ->
  let m' := step m upd in
  (fsm_state m' = fsm_state m /\ fsm_data m' = fsm_data m)
  \/ (upd = CommandWeather
      /\ fsm_state m' = Some input_start /\ fsm_data m' = fsm_data m)
  \/ (exists text,
        fsm_state m = Some input_start /\ fsm_state m' = Some input_end
        /\ fsm_data m' = with_start_city text (fsm_data m))
  \/ (exists text,
        fsm_state m = Some input_end /\ fsm_state m' = Some input_midpoints
        /\ fsm_data m' = with_end_city text (fsm_data m))
  \/ (exists mids,
        fsm_state m = Some input_midpoints
        /\ fsm_state m' = Some choose_forecast
        /\ fsm_data m' = with_midpoints mids (fsm_data m))
  \/ (fsm_state m = Some choose_forecast
      /\ fsm_state m' = None /\ fsm_data m' = no_data).
Proof.
  intros Hinv. cbv zeta.
  destruct (fsm_state m) as [[]|] eqn:Hs; destruct upd as [| | |text|data];
    try (left; split; [unfold step, dispatch; try rewrite Hs; cbn; try rewrite Hs; reflexivity | reflexivity]);
    try (right; left; split; [reflexivity|split; reflexivity]).
  - right. right. left. exists text.
    rewrite (step_start_city _ _ Hs). repeat split; reflexivity.
  - left. unfold step, dispatch. rewrite Hs. cbn. rewrite Hs. split; reflexivity.
  - right. right. right. left. exists text.
    destruct (step_end_city m text Hs) as [Hs' Hd'].
    repeat split; assumption.
  - left. unfold step, dispatch. rewrite Hs. cbn. rewrite Hs. split; reflexivity.
  - right. right. right. right. left. exists (parse_midpoints text).
    destruct (step_midpoints_text m text Hs) as [Hs' Hd'].
    repeat split; assumption.
  - destruct (PyStr.eqb data (u "add_midpoints")) eqn:Hadd.
    { apply eqb_eq in Hadd. subst data.
      destruct (step_add_midpoints m Hs) as [Hs' Hd'].
      left. split; assumption. }
    destruct (PyStr.eqb data (u "skip_midpoints")) eqn:Hskip.
    { apply eqb_eq in Hskip. subst data.
      destruct (step_skip_midpoints m Hs) as [Hs' Hd'].
      right. right. right. right. left. exists []. repeat split; assumption. }
    left. unfold step, dispatch. rewrite Hs, Hadd, Hskip. cbn. rewrite Hs.
    split; reflexivity.
  - left. rewrite step_unhandled_text by (right; exact Hs).
    split; [exact Hs|reflexivity].
  - destruct (PyStr.eqb data (u "3_days") || PyStr.eqb data (u "5_days"))
      eqn:Hchoice.
    + unfold fields_collected in Hinv. rewrite Hs in Hinv.
      destruct Hinv as [[start Hstart] [stop Hstop]].
      rewrite (step_forecast_choice m data _ Hs (choice_of_test _ Hchoice)
                 (route_collected _ _ _ Hstart Hstop)).
      right. right. right. right. right. repeat split; reflexivity.
    + left. unfold step, dispatch. rewrite Hs, Hchoice. cbn. rewrite Hs.
      split; reflexivity.
  - left. rewrite step_unhandled_text by (left; exact Hs).
    split; [exact Hs|reflexivity].
  - left. unfold step, dispatch. rewrite Hs. cbn. rewrite Hs.
    split; reflexivity.
Qed.

Lemma step_context_invariant m upd :
  context_invariant m -> context_invariant (step m upd).
Proof.
  intros [Hfields [Hmids Hdays]].
  pose proof (step_fields_collected m upd Hfields) as Hfields'.
  split; [exact Hfields'|].
  destruct (step_outcome m upd Hfields)
    as [[Hs Hd]|[[_ [Hs Hd]]|[[t [Hs0 [Hs Hd]]]|[[t [Hs0 [Hs Hd]]]
       |[[l [Hs0 [Hs Hd]]]|[Hs0 [Hs Hd]]]]]]];
    rewrite Hs, Hd; split;
    first [ exact Hdays | exact Hmids | discriminate | reflexivity
          | intros _; apply has_value_some ].
Qed.

Lemma reachable_context_invariant m : reachable m -> context_invariant m.
Proof.
  induction 1 as [w|m upd _ IH].
  - split; [exact I|]. split; [discriminate|reflexivity].
  - apply step_context_invariant. exact IH.
Qed.

(** X13. An update leaves the state where it is, or moves it to the next
    state of the flow, or, when it is /weather, to [input_start]: no
    state is skipped, and nothing but /weather goes back. *)
Theorem state_moves_one_step m upd :
  reachable m ->
  fsm_state (step m upd) = fsm_state m
  \/ fsm_state (step m upd) = next_state (fsm_state m)
  \/ (upd = CommandWeather /\ fsm_state (step m upd) = Some input_start).
Proof.
  intros Hreach.
  destruct (step_outcome m upd
              (proj1 (reachable_context_invariant m Hreach)))
    as [[Hs _]|[[Hw [Hs _]]|[[t [Hs0 [Hs _]]]|[[t [Hs0 [Hs _]]]
       |[[l [Hs0 [Hs _]]]|[Hs0 [Hs _]]]]]]].
  - left. exact Hs.
  - right. right. split; assumption.
  - right. left. rewrite Hs, Hs0. reflexivity.
  - right. left. rewrite Hs, Hs0. reflexivity.
  - right. left. rewrite Hs, Hs0. reflexivity.
  - right. left. rewrite Hs, Hs0. reflexivity.
Qed.

(** X14. When the forecast length is asked for, the midpoints are in the
    data, be it as an empty list: the default of the lookup at line 145
    is never what the route is built from. *)
Theorem midpoints_present_when_choosing m :
  reachable m ->
  fsm_state m = Some choose_forecast ->
  exists mids,
    midpoints (fsm_data m) = Some mids
    /\ exists start stop,
         route (fsm_data m) = inr ([start] ++ mids ++ [stop]).
Proof.
  intros Hreach Hs.
  destruct (reachable_context_invariant m Hreach) as [Hfields [Hmids _]].
  destruct (Hmids Hs) as [mids Hm]. exists mids. split; [exact Hm|].
  unfold fields_collected in Hfields. rewrite Hs in Hfields.
  destruct Hfields as [[start Hstart] [stop Hstop]].
  exists start, stop. rewrite (route_collected _ _ _ Hstart Hstop).
  unfold midpoints_or_empty. rewrite Hm. reflexivity.
Qed.

(** X15. The day count is never kept between two updates: the handler
    that stores it clears the data before it returns. *)
Theorem days_never_kept m :
  reachable m -> days (fsm_data m) = None.
Proof.
  intros Hreach.
  exact (proj2 (proj2 (reachable_context_invariant m Hreach))).
Qed.

(** X16. Once the report or the failure notice is sent, further texts
    and button presses do nothing, a second press of a forecast-length
    button included: the aggregator is not called again. *)
Theorem after_the_reply_inputs_are_ignored m choice upd :
  reachable m ->
  fsm_state m = Some choose_forecast ->
  choice = u "3_days" \/ choice = u "5_days" ->
  is_command upd = false ->
  step (step m (Callback choice)) upd = step m (Callback choice).
Proof.
  intros Hreach Hs Hchoice Hupd.
  pose proof (proj1 (reachable_context_invariant m Hreach)) as Hfields.
  unfold fields_collected in Hfields. rewrite Hs in Hfields.
  destruct Hfields as [[start Hstart] [stop Hstop]].
  rewrite (step_forecast_choice m choice _ Hs Hchoice
             (route_collected _ _ _ Hstart Hstop)).
  destruct upd; try discriminate; reflexivity.
Qed.

(** X17. Were the start or the end city missing from the data, the
    handler of the forecast-length choice would raise [KeyError] before
    anything else: the day count is stored, nothing is sent, the provider
    is not contacted and the state stays. *)
Theorem forecast_choice_without_city m choice :
  fsm_state m = Some choose_forecast ->
  choice = u "3_days" \/ choice = u "5_days" ->
  start_city (fsm_data m) = None \/ end_city (fsm_data m) = None ->
  dispatch (Callback choice) m
  = (inl KeyError,
     {| fsm_state := Some choose_forecast;
        fsm_data := with_days (days_of_choice choice) (fsm_data m);
        world := world m;
        outbox := outbox m |}).
Proof.
  intros Hs Hchoice Hmissing. unfold dispatch.
  rewrite Hs, (choice_accepted _ Hchoice).
  unfold forecast_days_selected, days_of_choice, bind, update_data,
    get_data, lift.
  cbn [fsm_data fsm_state world outbox]. rewrite route_with_days.
  assert (Hroute : route (fsm_data m) = inl KeyError).
  { unfold route. destruct Hmissing as [H|H]; rewrite H.
    - reflexivity.
    - destruct (start_city (fsm_data m)); reflexivity. }
  rewrite Hroute, Hs. reflexivity.
Qed.

Lemma feed_app m l1 l2 : feed m (l1 ++ l2) = feed (feed m l1) l2.
Proof. unfold feed. apply fold_left_app. Qed.

(** The midpoints step, on the machine: it ends in [choose_forecast] with
    the midpoints of its inputs stored, the start and end cities and the
    provider's world as they were. *)
Lemma midpoints_phase_feed mids : midpoints_inputs mids ->
  forall m,
    fsm_state m = Some input_midpoints ->
    fsm_state (feed m mids) = Some choose_forecast
    /\ start_city (fsm_data (feed m mids)) = start_city (fsm_data m)
    /\ end_city (fsm_data (feed m mids)) = end_city (fsm_data m)
    /\ midpoints (fsm_data (feed m mids)) = Some (midpoints_of mids)
    /\ world (feed m mids) = world m.
Proof.
  assert (Hnot : forall m : machine World,
             fsm_state m = Some input_midpoints ->
             fsm_state m <> Some choose_forecast).
  { intros m H. rewrite H. discriminate. }
  induction 1 as [|text|mids Hmids IH]; intros m Hs.
  - destruct (step_skip_midpoints m Hs) as [Hs' Hd'].
    change (feed m [Callback (u "skip_midpoints")])
      with (step m (Callback (u "skip_midpoints"))).
    rewrite Hs', Hd', (step_keeps_world m _ (Hnot m Hs)).
    repeat split; reflexivity.
  - destruct (step_midpoints_text m text Hs) as [Hs' Hd'].
    change (feed m [TextMessage text]) with (step m (TextMessage text)).
    rewrite Hs', Hd', (step_keeps_world m _ (Hnot m Hs)).
    repeat split; reflexivity.
  - destruct (step_add_midpoints m Hs) as [Hs' Hd'].
    change (feed m (Callback (u "add_midpoints") :: mids))
      with (feed (step m (Callback (u "add_midpoints"))) mids).
    destruct (IH _ Hs') as [H1 [H2 [H3 [H4 H5]]]].
    rewrite Hd' in H2, H3.
    rewrite (step_keeps_world m _ (Hnot m Hs)) in H5.
    repeat split; assumption.
Qed.

(** X18. From any conversation, whatever its state and whatever an
    abandoned attempt left in its data, a full sequence of flow inputs
    makes the bot call the aggregator on the cities of this sequence
    alone: the start city, the midpoints of this sequence, the end city;
    the reply is the last thing sent and the context is cleared. *)
Theorem flow_uses_its_own_cities m start stop mids choice :
  midpoints_inputs mids ->
  choice = u "3_days" \/ choice = u "5_days" ->
  let m' :=
    feed m ([CommandWeather; TextMessage start; TextMessage stop]
              ++ mids ++ [Callback choice]) in
  let run :=
    generate_forecast ([start] ++ midpoints_of mids ++ [stop])
      (days_of_choice choice) (world m) in
  fsm_state m' = None
  /\ fsm_data m' = no_data
  /\ world m' = snd run
  /\ last (outbox m') CallAnswer = reply_of (fst run).
Proof.
  intros Hmids Hchoice. cbv zeta.
  change ([CommandWeather; TextMessage start; TextMessage stop]
            ++ mids ++ [Callback choice])
    with ([CommandWeather; TextMessage start; TextMessage stop]
            ++ (mids ++ [Callback choice])).
  rewrite feed_app, feed_app.
  change (feed m [CommandWeather; TextMessage start; TextMessage stop])
    with (step (step (step m CommandWeather) (TextMessage start))
            (TextMessage stop)).
  set (m1 := step m CommandWeather).
  assert (Hs1 : fsm_state m1 = Some input_start) by reflexivity.
  pose proof (step_start_city m1 start Hs1) as Hm2.
  set (m2 := step m1 (TextMessage start)) in *.
  assert (Hs2 : fsm_state m2 = Some input_end) by (rewrite Hm2; reflexivity).
  destruct (step_end_city m2 stop Hs2) as [Hs3 Hd3].
  assert (Hw3 : world (step m2 (TextMessage stop)) = world m).
  { rewrite step_keeps_world by (rewrite Hs2; discriminate).
    rewrite Hm2. reflexivity. }
  set (m3 := step m2 (TextMessage stop)) in *.
  destruct (midpoints_phase_feed mids Hmids m3 Hs3)
    as [Hs4 [Hstart [Hstop [Hm4 Hw4]]]].
  set (m4 := feed m3 mids) in *.
  change (feed m4 [Callback choice]) with (step m4 (Callback choice)).
  assert (Hroute : route (fsm_data m4)
                   = inr ([start] ++ midpoints_of mids ++ [stop])).
  { rewrite (route_collected (fsm_data m4) start stop).
    - unfold midpoints_or_empty. rewrite Hm4. reflexivity.
    - rewrite Hstart, Hd3, Hm2. reflexivity.
    - rewrite Hstop, Hd3. reflexivity. }
  rewrite (step_forecast_choice m4 choice _ Hs4 Hchoice Hroute).
  unfold after_forecast. cbn [fsm_state fsm_data world outbox].
  rewrite last_last, Hw4, Hw3. repeat split; reflexivity.
Qed.

(** What has been sent plays no part in what a handler does to the
    context. *)
Lemma forecast_days_selected_context choice m1 m2 :
  same_context m1 m2 ->
  same_context (snd (forecast_days_selected choice m1))
               (snd (forecast_days_selected choice m2)).
Proof.
  destruct m1 as [s1 d1 w1 o1], m2 as [s2 d2 w2 o2].
  intros [Hs [Hd Hw]]. cbn in Hs, Hd, Hw. subst s2 d2 w2.
  unfold forecast_days_selected, bind, update_data, get_data, lift,
    try_except, in_world, answer, clear.
  cbn [fsm_data fsm_state world outbox].
  destruct (route (with_days
                     (if PyStr.eqb choice (u "3_days") then 3 else 5) d1))
    as [e|cities].
  - repeat split.
  - destruct (generate_forecast cities
                (if PyStr.eqb choice (u "3_days") then 3 else 5) w1)
      as [[e|rs] w']; repeat split.
Qed.

Lemma step_same_context m1 m2 upd :
  same_context m1 m2 -> same_context (step m1 upd) (step m2 upd).
Proof.
  intros H. pose proof H as [Hs _].
  unfold step, dispatch. rewrite <- Hs.
  destruct upd as [| | |text|data];
    destruct (fsm_state m1) as [[]|];
    repeat match goal with
           | |- context [if ?b then _ else _] => destruct b
           end;
    try exact H;
    try (apply forecast_days_selected_context; exact H);
    destruct H as [_ [Hd Hw]]; unfold same_context;
    cbn; rewrite ?Hd, ?Hw; repeat split.
Qed.

Lemma chatter_keeps_context m upd :
  is_chatter upd = true -> same_context (step m upd) m.
Proof. destruct upd; try discriminate; intros _; repeat split. Qed.

Lemma feed_same_context updates : forall m1 m2,
  same_context m1 m2 ->
  same_context (feed m1 updates)
    (feed m2 (filter (fun upd => negb (is_chatter upd)) updates)).
Proof.
  induction updates as [|upd rest IH]; intros m1 m2 H; [exact H|].
  cbn [filter]. destruct (is_chatter upd) eqn:Hchat; cbn [negb].
  - change (feed m1 (upd :: rest)) with (feed (step m1 upd) rest).
    apply IH.
    destruct (chatter_keeps_context m1 upd Hchat) as [A [B C]].
    destruct H as [A' [B' C']].
    repeat split; congruence.
  - change (feed m1 (upd :: rest)) with (feed (step m1 upd) rest).
    change (feed m2 (upd :: filter (fun upd => negb (is_chatter upd)) rest))
      with (feed (step m2 upd)
              (filter (fun upd => negb (is_chatter upd)) rest)).
    apply IH. apply step_same_context. exact H.
Qed.

(** X19. The /start and /help commands never disturb a conversation:
    dropping them from any sequence of updates changes neither the
    state, nor the data, nor what the provider is asked. *)
Theorem chatter_is_transparent m updates :
  same_context (feed m updates)
    (feed m (filter (fun upd => negb (is_chatter upd)) updates)).
Proof. apply feed_same_context. repeat split. Qed.

Ltac latest_sent :=
  unfold offered;
  cbv [start_command help_command weather_command handle_start_city
       handle_end_city add_midpoints skip_midpoints handle_midpoints
       request_forecast_days bind answer call_answer set_state update_data
       snd fst outbox fsm_state];
  rewrite last_last.

(** After an update that a handler took, the latest thing sent carries no
    button, or the keyboard of the state the conversation is now in. *)
Lemma step_latest m upd :
  fields_collected m ->
  step m upd = m
  \/ offered (step m upd) = []
  \/ (fsm_state (step m upd) = Some input_midpoints
      /\ offered (step m upd) = [u "add_midpoints"; u "skip_midpoints"])
  \/ (fsm_state (step m upd) = Some choose_forecast
      /\ offered (step m upd) = [u "3_days"; u "5_days"]).
Proof.
  intros Hfields.
  destruct (fsm_state m) as [[]|] eqn:Hs; destruct upd as [| | |text|data];
    unfold step, dispatch; rewrite ?Hs;
    repeat match goal with
           | |- context [if ?b then _ else _] => destruct b eqn:?
           end;
    try (left; reflexivity);
    try (right; left; latest_sent; reflexivity);
    try (right; right; left; split; [reflexivity|latest_sent; reflexivity]);
    try (right; right; right; split;
         [reflexivity|latest_sent; reflexivity]).
  right. left.
  unfold fields_collected in Hfields. rewrite Hs in Hfields.
  destruct Hfields as [[start Hstart] [stop Hstop]].
  rewrite (forecast_days_selected_run data m _
             (route_collected _ _ _ Hstart Hstop)).
  unfold offered, after_forecast. cbn [outbox]. rewrite last_last.
  destruct (fst (generate_forecast
                   ([start] ++ midpoints_or_empty (fsm_data m) ++ [stop])
                   (days_of_choice data) (world m))); reflexivity.
Qed.

Lemma step_keyboard m upd :
  fields_collected m ->
  keyboard_matches_state m -> keyboard_matches_state (step m upd).
Proof.
  intros Hfields Hkb.
  destruct (step_latest m upd Hfields)
    as [E|[E|[[Hs E]|[Hs E]]]].
  - rewrite E. exact Hkb.
  - unfold keyboard_matches_state. rewrite E.
    destruct (fsm_state (step m upd)) as [[]|];
      try reflexivity; intros d [].
  - unfold keyboard_matches_state. rewrite Hs, E.
    intros d [<-|[<-|[]]]; auto.
  - unfold keyboard_matches_state. rewrite Hs, E.
    intros d [<-|[<-|[]]]; auto.
Qed.

Lemma reachable_keyboard m : reachable m -> keyboard_matches_state m.
Proof.
  induction 1 as [w|m upd Hm IH].
  - reflexivity.
  - apply step_keyboard; [|exact IH].
    exact (proj1 (reachable_context_invariant m Hm)).
Qed.

(** X20. A button under the latest message of the bot is always taken:
    pressing it makes the bot send something. *)
Theorem offered_buttons_are_answered m data :
  reachable m ->
  In data (offered m) ->
  exists sent,
    sent <> [] /\ outbox (step m (Callback data)) = outbox m ++ sent.
Proof.
  intros Hreach Hin.
  pose proof (reachable_keyboard m Hreach) as Hkb.
  pose proof (proj1 (reachable_context_invariant m Hreach)) as Hfields.
  unfold keyboard_matches_state in Hkb. unfold fields_collected in Hfields.
  destruct (fsm_state m) as [[]|] eqn:Hs;
    try (rewrite Hkb in Hin; contradiction).
  - destruct (Hkb data Hin) as [-> | ->];
      unfold step, dispatch; rewrite Hs;
      cbv [add_midpoints skip_midpoints request_forecast_days bind answer
           call_answer set_state update_data snd fst outbox];
      rewrite <- ?app_assoc; eexists; (split; [|reflexivity]); discriminate.
  - destruct Hfields as [[start Hstart] [stop Hstop]].
    rewrite (step_forecast_choice m data _ Hs (Hkb data Hin)
               (route_collected _ _ _ Hstart Hstop)).
    eexists. split; [|reflexivity]. discriminate.
Qed.

End HandlerFacts.


(** ** The further properties at concrete inputs *)

Module MoreRuns.

Import Demo.

Lemma reachable_awaiting_choice : reachable awaiting_choice.
Proof. unfold awaiting_choice. apply Runs.reachable_feed. constructor. Qed.

Lemma parse_midpoints_join_demo :
  Forall clean_city [u "Paris"; u "New York"]
  /\ parse_midpoints (u "Paris,New York") = [u "Paris"; u "New York"].
Proof.
  assert (Hclean : Forall clean_city [u "Paris"; u "New York"]).
  { repeat constructor; try discriminate; try (vm_compute; reflexivity);
      vm_compute; intuition discriminate. }
  split; [exact Hclean|].
  exact (MidpointsFacts.parse_midpoints_join [u "Paris"; u "New York"] Hclean).
Defined.

Lemma generate_forecast_aborts_demo :
  (generate_forecast (env := Faulty.env) [u "ValidCity"] 3 0%nat
   = (inr [valid_city_3], 2%nat)
   /\ generate_forecast (env := Faulty.env) [u "Broken"] 3 2%nat
      = (inl AttributeError, 4%nat))
  /\ generate_forecast (env := Faulty.env)
       [u "ValidCity"; u "Broken"; u "Bare"] 3 0%nat
     = (inl AttributeError, 4%nat).
Proof.
  assert (Hpre : generate_forecast (env := Faulty.env) [u "ValidCity"] 3 0%nat
                 = (inr [valid_city_3], 2%nat))
    by (vm_compute; reflexivity).
  assert (Hmid : generate_forecast (env := Faulty.env) [u "Broken"] 3 2%nat
                 = (inl AttributeError, 4%nat))
    by (vm_compute; reflexivity).
  split; [split; assumption|].
  exact (generate_forecast_aborts (env := Faulty.env)
           [u "ValidCity"] [u "Broken"] [u "Bare"] 3 0%nat
           [valid_city_3] 2%nat AttributeError 4%nat Hpre Hmid).
Defined.

Lemma request_failure_ends_aggregation_demo :
  (generate_forecast (env := Faulty.env) [u "ValidCity"] 3 0%nat
   = (inr [valid_city_3], 2%nat)
   /\ search_request (Env := Faulty.env) (u "Down") 2%nat
      = (RequestFailed, 3%nat))
  /\ generate_forecast (env := Faulty.env)
       [u "ValidCity"; u "Down"; u "Bare"] 3 0%nat
     = (inl ClientError, 3%nat).
Proof.
  assert (Hpre : generate_forecast (env := Faulty.env) [u "ValidCity"] 3 0%nat
                 = (inr [valid_city_3], 2%nat))
    by (vm_compute; reflexivity).
  split; [split; [exact Hpre|reflexivity]|].
  exact (request_failure_ends_aggregation (env := Faulty.env)
           [u "ValidCity"] (u "Down") [u "Bare"] 3 0%nat
           [valid_city_3] 2%nat 3%nat Hpre (or_introl eq_refl)).
Defined.

Lemma never_more_than_days_demo :
  generate_forecast [u "ValidCity"; u "GarbageCity123"; u "Moscow"] 3 0%nat
  = (inr [valid_city_3; marker "GarbageCity123"; moscow_empty], 5%nat)
  /\ Forall (fun r => match forecast r with
                      | NoData => True
                      | Days ds => Z.of_nat (List.length ds) <= 3
                      end)
       [valid_city_3; marker "GarbageCity123"; moscow_empty].
Proof.
  assert (Hrun : generate_forecast
                   [u "ValidCity"; u "GarbageCity123"; u "Moscow"] 3 0%nat
                 = (inr [valid_city_3; marker "GarbageCity123"; moscow_empty],
                    5%nat))
    by (vm_compute; reflexivity).
  split; [exact Hrun|].
  exact (never_more_than_days (env := Demo.env)
           [u "ValidCity"; u "GarbageCity123"; u "Moscow"] 3 0%nat _ 5%nat
           ltac:(lia) Hrun).
Defined.

Lemma day_of_entry_date_demo :
  day_of_entry (entry "2024-05-01T07:00:00+03:00" 10 20 "Sunny")
  = inr (day "2024-05-01" "10 - 20 °C" "Sunny")
  /\ exists s,
       getitem (entry "2024-05-01T07:00:00+03:00" 10 20 "Sunny") (u "Date")
       = inr (JStr s)
       /\ ~ In letter_T (u "2024-05-01")
       /\ (s = u "2024-05-01"
           \/ exists rest, s = u "2024-05-01" ++ letter_T :: rest).
Proof.
  assert (Hday : day_of_entry (entry "2024-05-01T07:00:00+03:00" 10 20 "Sunny")
                 = inr (day "2024-05-01" "10 - 20 °C" "Sunny"))
    by (vm_compute; reflexivity).
  split; [exact Hday|].
  exact (day_of_entry_date (env := Demo.env) _ _ Hday).
Defined.

Lemma missing_daily_forecasts_is_empty_demo :
  (fetch_location_key (env := Faulty.env) (u "Bare") 0%nat
   = (inr (JStr (u "7")), 1%nat)
   /\ forecast_request (Env := Faulty.env) (u "7") 1%nat
      = (Responded {| status := 200;
                      body := Some (JObj [(u "Headline", JNull)]) |}, 2%nat))
  /\ generate_forecast (env := Faulty.env) [u "Bare"] 5 0%nat
     = (inr [{| location := u "Bare"; forecast := Days [] |}], 2%nat).
Proof.
  assert (Hkey : fetch_location_key (env := Faulty.env) (u "Bare") 0%nat
                 = (inr (JStr (u "7")), 1%nat))
    by (vm_compute; reflexivity).
  split; [split; [exact Hkey|reflexivity]|].
  exact (missing_daily_forecasts_is_empty (env := Faulty.env)
           (u "Bare") 5 0%nat (JStr (u "7")) 1%nat
           {| status := 200; body := Some (JObj [(u "Headline", JNull)]) |}
           2%nat [(u "Headline", JNull)]
           Hkey eq_refl eq_refl eq_refl eq_refl eq_refl).
Defined.

Lemma later_entries_are_not_read_demo :
  (fetch_location_key (env := Faulty.env) (u "Long") 0%nat
   = (inr (JStr (u "9")), 1%nat)
   /\ fetch_weather_forecast (env := Faulty.env) (JStr (u "9")) 1%nat
      = (inr (JArr (Faulty.three_days ++ [JNull; JStr (u "junk")])), 2%nat)
   /\ day_of_entry (env := Faulty.env) JNull = inl TypeError)
  /\ generate_forecast (env := Faulty.env) [u "Long"] 3 0%nat
     = (inr [{| location := u "Long"; forecast := forecast valid_city_3 |}],
        2%nat).
Proof.
  assert (Hkey : fetch_location_key (env := Faulty.env) (u "Long") 0%nat
                 = (inr (JStr (u "9")), 1%nat))
    by (vm_compute; reflexivity).
  assert (Hfetch :
            fetch_weather_forecast (env := Faulty.env) (JStr (u "9")) 1%nat
            = (inr (JArr (Faulty.three_days ++ [JNull; JStr (u "junk")])),
               2%nat))
    by (vm_compute; reflexivity).
  split; [split; [exact Hkey|split; [exact Hfetch|reflexivity]]|].
  refine (later_entries_are_not_read (env := Faulty.env)
            (u "Long") 3 0%nat (JStr (u "9")) 1%nat
            Faulty.three_days [JNull; JStr (u "junk")] 2%nat _
            Hkey eq_refl Hfetch eq_refl _).
  vm_compute. reflexivity.
Defined.

Lemma falsy_answers_are_no_data_demo :
  search_request (Env := Faulty.env) (u "Nowhere") 0%nat
  = (Responded {| status := 200; body := Some (JObj []) |}, 1%nat)
  /\ generate_forecast (env := Faulty.env) [u "Nowhere"] 3 0%nat
     = (inr [marker "Nowhere"], 1%nat).
Proof.
  split; [reflexivity|].
  exact (falsy_answers_are_no_data (env := Faulty.env)
           (u "Nowhere") 3 0%nat
           {| status := 200; body := Some (JObj []) |} 1%nat (JObj [])
           eq_refl eq_refl eq_refl (or_introl eq_refl)).
Defined.

Lemma state_moves_one_step_demo :
  reachable awaiting_choice
  /\ (fsm_state (step awaiting_choice (Callback (u "3_days")))
      = fsm_state awaiting_choice
      \/ fsm_state (step awaiting_choice (Callback (u "3_days")))
         = next_state (fsm_state awaiting_choice)
      \/ (Callback (u "3_days") = CommandWeather
          /\ fsm_state (step awaiting_choice (Callback (u "3_days")))
             = Some input_start)).
Proof.
  split; [exact reachable_awaiting_choice|].
  exact (state_moves_one_step (env := Demo.env) awaiting_choice
           (Callback (u "3_days")) reachable_awaiting_choice).
Defined.

Lemma midpoints_present_when_choosing_demo :
  (reachable awaiting_choice
   /\ fsm_state awaiting_choice = Some choose_forecast)
  /\ exists mids,
       midpoints (fsm_data awaiting_choice) = Some mids
       /\ exists start stop,
            route (fsm_data awaiting_choice)
            = inr ([start] ++ mids ++ [stop]).
Proof.
  split; [split; [exact reachable_awaiting_choice|reflexivity]|].
  exact (midpoints_present_when_choosing (env := Demo.env) awaiting_choice
           reachable_awaiting_choice eq_refl).
Defined.

Lemma days_never_kept_demo :
  reachable (step awaiting_choice (Callback (u "5_days")))
  /\ days (fsm_data (step awaiting_choice (Callback (u "5_days")))) = None.
Proof.
  assert (Hreach : reachable (step awaiting_choice (Callback (u "5_days")))).
  { constructor. exact reachable_awaiting_choice. }
  split; [exact Hreach|].
  exact (days_never_kept (env := Demo.env) _ Hreach).
Defined.

Lemma after_the_reply_inputs_are_ignored_demo :
  (reachable awaiting_choice
   /\ fsm_state awaiting_choice = Some choose_forecast
   /\ is_command (Callback (u "5_days")) = false)
  /\ step (step awaiting_choice (Callback (u "3_days")))
       (Callback (u "5_days"))
     = step awaiting_choice (Callback (u "3_days")).
Proof.
  split; [split; [exact reachable_awaiting_choice|split; reflexivity]|].
  exact (after_the_reply_inputs_are_ignored (env := Demo.env)
           awaiting_choice (u "3_days") (Callback (u "5_days"))
           reachable_awaiting_choice eq_refl (or_introl eq_refl) eq_refl).
Defined.

Lemma forecast_choice_without_city_demo :
  (fsm_state Faulty.no_start = Some choose_forecast
   /\ start_city (fsm_data Faulty.no_start) = None)
  /\ dispatch (Callback (u "3_days")) Faulty.no_start
     = (inl KeyError,
        {| fsm_state := Some choose_forecast;
           fsm_data := {| start_city := None; end_city := Some (u "B");
                          midpoints := Some []; days := Some 3 |};
           world := 0%nat;
           outbox := [] |}).
Proof.
  split; [split; reflexivity|].
  exact (forecast_choice_without_city (env := Demo.env) Faulty.no_start
           (u "3_days") eq_refl (or_introl eq_refl) (or_introl eq_refl)).
Defined.

Lemma flow_uses_its_own_cities_demo :
  (fsm_data awaiting_choice
   = {| start_city := Some (u "ValidCity"); end_city := Some (u "Moscow");
        midpoints := Some []; days := None |}
   /\ midpoints_inputs [Callback (u "add_midpoints");
                        TextMessage (u " Paris,  , London ,,")])
  /\ let m' :=
       feed awaiting_choice
         [CommandWeather; TextMessage (u "Moscow"); TextMessage (u "ValidCity");
          Callback (u "add_midpoints");
          TextMessage (u " Paris,  , London ,,"); Callback (u "5_days")] in
     let run :=
       generate_forecast
         [u "Moscow"; u "Paris"; u "London"; u "ValidCity"] 5 0%nat in
     fsm_state m' = None
     /\ fsm_data m' = no_data
     /\ world m' = snd run
     /\ last (outbox m') CallAnswer = reply_of (fst run).
Proof.
  assert (Hmids : midpoints_inputs [Callback (u "add_midpoints");
                                    TextMessage (u " Paris,  , London ,,")]).
  { apply midpoints_add. apply midpoints_text. }
  split; [split; [reflexivity|exact Hmids]|].
  exact (flow_uses_its_own_cities (env := Demo.env) awaiting_choice
           (u "Moscow") (u "ValidCity")
           [Callback (u "add_midpoints");
            TextMessage (u " Paris,  , London ,,")]
           (u "5_days") Hmids (or_intror eq_refl)).
Defined.

Lemma offered_buttons_are_answered_demo :
  (reachable awaiting_choice
   /\ offered awaiting_choice = [u "3_days"; u "5_days"])
  /\ exists sent,
       sent <> []
       /\ outbox (step awaiting_choice (Callback (u "5_days")))
          = outbox awaiting_choice ++ sent.
Proof.
  split; [split; [exact reachable_awaiting_choice|reflexivity]|].
  exact (offered_buttons_are_answered (env := Demo.env) awaiting_choice
           (u "5_days") reachable_awaiting_choice
           (or_intror (or_introl eq_refl))).
Defined.

End MoreRuns.
